(** * Log-uniform candidate sampler: expected-count arithmetic

    A shallow embedding of [scripts/language_model/sampler.py]
    (class [LogUniformSampler]) and the properties of its expected-count
    computation.

    Numbers.  The arrays of the source hold IEEE doubles.  They are embedded
    as _ideal_ floats: a real number or one of the three special values, with
    the special-value rules of IEEE arithmetic written out and rounding taken
    to be exact.  Overflow, subnormals and the sign of zero are not
    represented; the only zero denominators the source can produce
    ([c + 1.0] at [c = -1] and [math.log(1)]) are positive zeros, so division
    by zero follows the rule for [+0].

    Where the ideal value and the double differ.  A theorem that equates an
    entry with a formula says which formula the code evaluates.  A theorem
    that orders or bounds entries is stated only where exact and rounded
    arithmetic agree on it: integers of magnitude [2^53] and more are not
    doubles, so [c + 1.0] and [c + 2.0] round there and the ratio
    [(c+2.0)/(c+1.0)] collapses to [1.0]; the ratios of neighbouring classes
    coincide from about [5 * 10^7]; [expm1] reaches [-1.0] for arguments
    below about [-37], so the general branch reaches [1.0]; and the final
    conversion to a narrow type rounds, overflows or wraps.  Such theorems
    carry a bound on the class index or on the output dtype. *)

From Stdlib Require Import Reals ZArith List Bool Lra Lia.
Import ListNotations.

Open Scope R_scope.

(* ================================================================== *)
(** ** Ideal floating-point values *)

Module XReal.

Inductive xreal : Type :=
| Fin (r : R)
| PInf
| NInf
| NaN.

(** Three-way sign of a real, used wherever IEEE arithmetic branches on it. *)
Definition Rsign (r : R) : comparison :=
  match total_order_T r 0 with
  | inleft (left _) => Lt
  | inleft (right _) => Eq
  | inright _ => Gt
  end.

(** [s * inf] for a factor of sign [s]. *)
Definition xinf (s : comparison) : xreal :=
  match s with Gt => PInf | Lt => NInf | Eq => NaN end.

Definition xneg (x : xreal) : xreal :=
  match x with
  | Fin r => Fin (- r)
  | PInf => NInf
  | NInf => PInf
  | NaN => NaN
  end.

(** Addition.  The sum of two finite values is exact here; the double sum
    [c + 1.0] of the source is exact for an integer [c] of magnitude below
    [2^53]. *)
Definition xadd (x y : xreal) : xreal :=
  match x, y with
  | NaN, _ | _, NaN => NaN
  | Fin a, Fin b => Fin (a + b)
  | PInf, NInf | NInf, PInf => NaN
  | PInf, _ | _, PInf => PInf
  | NInf, _ | _, NInf => NInf
  end.

Definition xmul (x y : xreal) : xreal :=
  match x, y with
  | NaN, _ | _, NaN => NaN
  | Fin a, Fin b => Fin (a * b)
  | Fin a, PInf | PInf, Fin a => xinf (Rsign a)
  | Fin a, NInf | NInf, Fin a => xinf (CompOpp (Rsign a))
  | PInf, PInf | NInf, NInf => PInf
  | PInf, NInf | NInf, PInf => NInf
  end.

(** Division.  The quotient of two finite values is exact here; the double
    quotient is the nearest double, which near [1] lies on a grid of step
    [2^-52]. *)
Definition xdiv (x y : xreal) : xreal :=
  match x, y with
  | NaN, _ | _, NaN => NaN
  | Fin a, Fin b =>
      match Rsign b with
      | Eq => xinf (Rsign a)
      | _ => Fin (a / b)
      end
  | Fin _, _ => Fin 0
  | PInf, Fin b => match Rsign b with Lt => NInf | _ => PInf end
  | NInf, Fin b => match Rsign b with Lt => PInf | _ => NInf end
  | _, _ => NaN
  end.

(** Natural logarithm: [log 0 = -inf], [log] of a negative number is NaN. *)
Definition xlog (x : xreal) : xreal :=
  match x with
  | Fin r =>
      match Rsign r with
      | Gt => Fin (ln r)
      | Eq => NInf
      | Lt => NaN
      end
  | PInf => PInf
  | NInf | NaN => NaN
  end.

(** [log1p x = log (1 + x)]. *)
Definition xlog1p (x : xreal) : xreal :=
  match x with
  | Fin r =>
      match Rsign (1 + r) with
      | Gt => Fin (ln (1 + r))
      | Eq => NInf
      | Lt => NaN
      end
  | PInf => PInf
  | NInf | NaN => NaN
  end.

(** [expm1 x = exp x - 1], exact on finite values: above [-1] for every
    finite argument, where the double result is [-1.0] already for
    arguments below about [-37]. *)
Definition xexpm1 (x : xreal) : xreal :=
  match x with
  | Fin r => Fin (exp r - 1)
  | PInf => PInf
  | NInf => Fin (-1)
  | NaN => NaN
  end.

(** Truncation toward zero, the conversion of a float to an integer type. *)
Definition Rtrunc (r : R) : Z :=
  match Rsign r with
  | Lt => (- Int_part (- r))%Z
  | _ => Int_part r
  end.

Definition xtrunc (x : xreal) : xreal :=
  match x with
  | Fin r => Fin (IZR (Rtrunc r))
  | _ => x
  end.

End XReal.
Import XReal.

(* ================================================================== *)
(** ** Arrays *)

Module NDArray.

(** The element types of an array. *)
Inductive DType : Type :=
| float16 | float32 | float64
| uint8 | int8 | int32 | int64.

Definition is_float (d : DType) : bool :=
  match d with
  | float16 | float32 | float64 => true
  | _ => false
  end.

(** Storing a value in an array of element type [d].  A float type stores
    it unchanged (ideal rounding), an integer type truncates it toward zero.
    This is exact for float64 and keeps bounds and signs for float32; the
    overflow and underflow of float16 and the wrap-around of narrow integer
    types are not represented, so the theorems that bound or order output
    values are stated for float32 and float64 outputs only. *)
Definition cast_elem (d : DType) (x : xreal) : xreal :=
  if is_float d then x else xtrunc x.

Record NDArray : Type := mkND {
  dtype : DType;
  shape : list nat;
  data : list xreal
}.

(** An elementwise operation keeps the shape and the element type. *)
Definition nd_map (f : xreal -> xreal) (a : NDArray) : NDArray :=
  {| dtype := dtype a;
     shape := shape a;
     data := map (fun x => cast_elem (dtype a) (f x)) (data a) |}.

Definition nd_map2 (f : xreal -> xreal -> xreal) (a b : NDArray) : NDArray :=
  {| dtype := dtype a;
     shape := shape a;
     data := map (fun xy => cast_elem (dtype a) (f (fst xy) (snd xy)))
                 (combine (data a) (data b)) |}.

(** [a.astype(d)] *)
Definition astype (d : DType) (a : NDArray) : NDArray :=
  {| dtype := d; shape := shape a; data := map (cast_elem d) (data a) |}.

(** [ndarray.array(l, dtype=d)] for a flat Python list of integers, which
    every element type stores unchanged. *)
Definition array (l : list Z) (d : DType) : NDArray :=
  {| dtype := d;
     shape := [length l];
     data := map (fun c => Fin (IZR c)) l |}.

(** [a + s], [a * s], [a / s] for a Python scalar [s]; [s * a] is [a * s]. *)
Definition add_scalar (a : NDArray) (s : R) : NDArray :=
  nd_map (fun x => xadd x (Fin s)) a.
Definition mul_scalar (a : NDArray) (s : R) : NDArray :=
  nd_map (fun x => xmul x (Fin s)) a.
Definition rmul_scalar (s : R) (a : NDArray) : NDArray :=
  nd_map (fun x => xmul (Fin s) x) a.
Definition div_scalar (a : NDArray) (s : R) : NDArray :=
  nd_map (fun x => xdiv x (Fin s)) a.

(** [a / b], [-a], [a.log()], [a.log1p()], [a.expm1()] *)
Definition div (a b : NDArray) : NDArray := nd_map2 xdiv a b.
Definition neg (a : NDArray) : NDArray := nd_map xneg a.
Definition log (a : NDArray) : NDArray := nd_map xlog a.
Definition log1p (a : NDArray) : NDArray := nd_map xlog1p a.
Definition expm1 (a : NDArray) : NDArray := nd_map xexpm1 a.

End NDArray.
Import NDArray.

(* ================================================================== *)
(** ** Exceptions, outcomes and the native sampler *)

Inductive exn : Type :=
| ValueError        (* raised by [math.log] outside its domain *)
| InvalidArgument.  (* raised by the native sampler *)

(** What running a piece of code yields: a value, an exception, or no answer
    within the fuel given to the native sampler's rejection loop. *)
Inductive outcome (A : Type) : Type :=
| Ok (a : A)
| Raise (e : exn)
| Diverge.
Arguments Ok {A} a.
Arguments Raise {A} e.
Arguments Diverge {A}.

Definition bind {A B : Type} (m : outcome A) (f : A -> outcome B) : outcome B :=
  match m with
  | Ok a => f a
  | Raise e => Raise e
  | Diverge => Diverge
  end.

Notation "x <- m ;; k" := (bind m (fun x => k))
  (at level 61, m at next level, right associativity).

(** [math.log] on a Python integer. *)
Definition math_log (x : Z) : outcome R :=
  if (x <=? 0)%Z then Raise ValueError else Ok (ln (IZR x)).

(** The interface of [log_uniform.LogUniformSampler], the native collaborator
    held in [self._csampler].  Its state is mutable, so both operations are
    state transformers; [sample_unique] hands back the state it leaves behind
    also when it fails. *)
Class CSampler (St : Type) : Type := {
  cs_new : Z -> Z -> outcome St;
  sample_unique : Z -> St -> outcome (list Z * Z) * St
}.

(** Code that may call the native sampler. *)
Inductive prog (A : Type) : Type :=
| Ret (a : A)
| SampleUnique (k : Z) (cont : list Z * Z -> prog A).
Arguments Ret {A} a.
Arguments SampleUnique {A} k cont.

(** Running a program against a sampler state.  The third component counts
    the invocations of [sample_unique]. *)
Fixpoint run {St : Type} {CS : CSampler St} {A : Type}
    (p : prog A) (s : St) : outcome A * St * nat :=
  match p with
  | Ret a => (Ok a, s, O)
  | SampleUnique k cont =>
      match sample_unique k s with
      | (Ok r, s') =>
          let '(o, s'', n) := run (cont r) s' in (o, s'', S n)
      | (Raise e, s') => (Raise e, s', 1%nat)
      | (Diverge, s') => (Diverge, s', 1%nat)
      end
  end.

(* ================================================================== *)
(** ** [class LogUniformSampler] *)

(** The fields set by [__init__], apart from the native sampler, whose state
    is threaded by [run]. *)
Record LogUniformSampler : Type := {
  _num_sampled : Z;
  _log_range : R;
  _dtype : DType
}.

(** [__init__] (lines 52-56).  [math.log] runs before the native constructor,
    so its ValueError comes first.  No argument is validated here. *)
Definition __init__ {St : Type} {CS : CSampler St}
    (range_max num_sampled : Z) (dtype : option DType) (seed : Z)
  : outcome (LogUniformSampler * St) :=
  log_range <- math_log (range_max + 1) ;;
  csampler <- cs_new range_max seed ;;
  Ok ({| _num_sampled := num_sampled;
         _log_range := log_range;
         _dtype := match dtype with None => float32 | Some d => d end |},
      csampler).

(** [_prob_helper] (lines 58-61). *)
Definition _prob_helper (num_tries num_sampled : Z) (prob : NDArray) : NDArray :=
  if (num_tries =? num_sampled)%Z then
    mul_scalar prob (IZR num_sampled)
  else
    mul_scalar (expm1 (rmul_scalar (IZR num_tries) (log1p (neg prob)))) (-1).

(** The local variables of [__call__] once the counts are computed. *)
Record Locals : Type := {
  num_tries : Z;
  true_cls : NDArray;
  prob_true : NDArray;
  count_true : NDArray;
  sampled_classes : NDArray;
  sampled_cls_fp64 : NDArray;
  prob_sampled : NDArray;
  count_sampled : NDArray
}.

(** The body of [__call__] after [sample_unique] has returned (lines 86-94).
    The first assignment [num_tries = 0] is overwritten by the draw before it
    is read, and [as_in_context(ctx)] with the array's own context leaves the
    array as it is. *)
Definition call_locals (self : LogUniformSampler) (true_classes : NDArray)
    (drawn : list Z * Z) : Locals :=
  let num_sampled := _num_sampled self in
  let log_range := _log_range self in
  let '(sampled_classes, num_tries) := drawn in
  (* expected count for true classes *)
  let true_cls := astype float64 true_classes in
  let prob_true :=
    div_scalar (log (div (add_scalar true_cls 2) (add_scalar true_cls 1)))
               log_range in
  let count_true := _prob_helper num_tries num_sampled prob_true in
  (* expected count for sampled classes *)
  let sampled_classes := array sampled_classes int64 in
  let sampled_cls_fp64 := astype float64 sampled_classes in
  let prob_sampled :=
    div_scalar (log (div (add_scalar sampled_cls_fp64 2)
                         (add_scalar sampled_cls_fp64 1)))
               log_range in
  let count_sampled := _prob_helper num_tries num_sampled prob_sampled in
  {| num_tries := num_tries;
     true_cls := true_cls;
     prob_true := prob_true;
     count_true := count_true;
     sampled_classes := sampled_classes;
     sampled_cls_fp64 := sampled_cls_fp64;
     prob_sampled := prob_sampled;
     count_sampled := count_sampled |}.

(** The conversion to [self._dtype] and the returned triple (lines 95-99). *)
Definition call_return (self : LogUniformSampler) (l : Locals)
  : NDArray * NDArray * NDArray :=
  (astype (_dtype self) (sampled_classes l),
   astype (_dtype self) (count_true l),
   astype (_dtype self) (count_sampled l)).

(** [__call__] (lines 63-99): one [sample_unique(num_sampled)], then the
    arithmetic on its answer. *)
Definition __call__ (self : LogUniformSampler) (true_classes : NDArray)
  : prog (NDArray * NDArray * NDArray) :=
  SampleUnique (_num_sampled self)
    (fun drawn => Ret (call_return self (call_locals self true_classes drawn))).

Definition outcome_map {A B : Type} (f : A -> B) (o : outcome A) : outcome B :=
  match o with
  | Ok a => Ok (f a)
  | Raise e => Raise e
  | Diverge => Diverge
  end.

(* ================================================================== *)
(** ** The native unique sampler *)

Module UniqueSampler.

Section Generator.

(** The pseudo-random generator behind the sampler: its state, the state a
    seed sets, and the next uniform variate of [0, 1). *)
Variable G : Type.
Variable seed_rng : Z -> G.
Variable next_uniform : G -> R * G.

Record state : Type := {
  range_max : Z;
  rng : G
}.

(** Modelled from the spec: [log_uniform.LogUniformSampler] is native code
    that is not part of the sources at hand.  One draw from the base
    distribution is [floor(exp(u * ln(range_max+1)) - 1)] for a uniform [u],
    clamped to [[0, range_max-1]]. *)
Definition draw_class (range_max : Z) (u : R) : Z :=
  Z.max 0 (Z.min (range_max - 1)
                 (Int_part (exp (u * ln (IZR (range_max + 1))) - 1))).

(** Modelled from the spec: the rejection loop of [sample_unique], which is
    native code that is not part of the sources at hand.  It draws one
    index at a time, inserts it into the accepted set if not already
    present, counts every draw, and stops when the accepted set reaches
    size [k].  [fuel] bounds the number of draws. *)
Fixpoint draw_loop (fuel : nat) (range_max k : Z) (accepted : list Z)
    (attempts : Z) (g : G) : outcome (list Z * Z) * G :=
  if (k <=? Z.of_nat (length accepted))%Z then (Ok (accepted, attempts), g)
  else
    match fuel with
    | O => (Diverge, g)
    | S fuel' =>
        let (u, g') := next_uniform g in
        let c := draw_class range_max u in
        if existsb (Z.eqb c) accepted
        then draw_loop fuel' range_max k accepted (attempts + 1)%Z g'
        else draw_loop fuel' range_max k (accepted ++ [c]) (attempts + 1)%Z g'
    end.

(** Modelled from the spec: [sample_unique(k)] of the native sampler, which
    is not part of the sources at hand.  It fails with InvalidArgument when
    [k] is not positive or [k > range_max] (sections 3, 4.1 and 7) and
    otherwise runs the rejection loop from an empty accepted set. *)
Definition spec_sample_unique (fuel : nat) (k : Z) (s : state)
  : outcome (list Z * Z) * state :=
  if ((k <=? 0) || (range_max s <? k))%Z then (Raise InvalidArgument, s)
  else
    let (o, g) := draw_loop fuel (range_max s) k [] 0%Z (rng s) in
    (o, {| range_max := range_max s; rng := g |}).

(** Modelled from the spec: the constructor of the native sampler, which is
    not part of the sources at hand.  It fails with InvalidArgument when
    [range_max] is not positive (sections 3 and 7); otherwise the seed sets
    the generator state. *)
Definition spec_new (range_max seed : Z) : outcome state :=
  if (range_max <=? 0)%Z then Raise InvalidArgument
  else Ok {| range_max := range_max; rng := seed_rng seed |}.

Definition spec_sampler (fuel : nat) : CSampler state :=
  {| cs_new := spec_new; sample_unique := spec_sample_unique fuel |}.

End Generator.

Arguments range_max {G} s.
Arguments rng {G} s.

(** A generator whose every variate is [0]: each draw is class [0]. *)
Definition zero_rng : unit -> R * unit := fun g => (0, g).

Definition zero_sampler (fuel : nat) : CSampler (state unit) :=
  spec_sampler unit (fun _ => tt) zero_rng fuel.

End UniqueSampler.

(** A scripted stand-in for the native sampler, as a test would use: its
    state is the list of answers still to be given. *)
Definition scripted_sampler : CSampler (list (list Z * Z)) :=
  {| cs_new := fun _ _ => Ok [];
     sample_unique := fun _ s =>
       match s with
       | [] => (Raise InvalidArgument, [])
       | r :: rest => (Ok r, rest)
       end |}.

(* ================================================================== *)
(** ** Elementwise reading of the array code *)

(** The base probability of the docstring and of the specification,
    [P(class) = ln((class+2)/(class+1)) / ln(range_max+1)], over the reals. *)
Definition log_uniform_prob (range_max c : Z) : R :=
  ln (IZR (c + 2) / IZR (c + 1)) / ln (IZR (range_max + 1)).

(** What lines 88 and 93 compute for one entry [x] of the class array. *)
Definition base_prob (log_range : R) (x : xreal) : xreal :=
  xdiv (xlog (xdiv (xadd x (Fin 2)) (xadd x (Fin 1)))) (Fin log_range).

(** What [_prob_helper] computes for one entry [p] of [prob]. *)
Definition expected (num_tries num_sampled : Z) (p : xreal) : xreal :=
  if (num_tries =? num_sampled)%Z then
    xmul p (Fin (IZR num_sampled))
  else
    xmul (xexpm1 (xmul (Fin (IZR num_tries)) (xlog1p (xneg p)))) (Fin (-1)).

(** The two closed forms of the specification, over the reals. *)
Definition fast_path (p : R) (num_sampled : Z) : R := p * IZR num_sampled.
Definition general_formula (p : R) (attempts : Z) : R :=
  1 - (1 - p) ^ Z.to_nat attempts.

(** The probability as the class docstring writes it (line 33),
    [P(class) = (log(class + 2) - log(class + 1)) / log(range_max + 1)]. *)
Definition docstring_prob (range_max c : Z) : R :=
  (ln (IZR (c + 2)) - ln (IZR (c + 1))) / ln (IZR (range_max + 1)).

(** The classes [0, 1, ..., range_max - 1] in order. *)
Definition all_classes (range_max : Z) : list Z :=
  map Z.of_nat (seq 0 (Z.to_nat range_max)).

(** The sum of a list of reals. *)
Definition Rsum (l : list R) : R := fold_right Rplus 0 l.

(** The three components of the triple [__call__] returns. *)
Definition out_samples (r : NDArray * NDArray * NDArray) : NDArray :=
  fst (fst r).
Definition out_count_true (r : NDArray * NDArray * NDArray) : NDArray :=
  snd (fst r).
Definition out_count_sample (r : NDArray * NDArray * NDArray) : NDArray :=
  snd r.

(** What a call returns when [sample_unique] answers [drawn]. *)
Definition call_result (self : LogUniformSampler) (true_classes : NDArray)
    (drawn : list Z * Z) : NDArray * NDArray * NDArray :=
  call_return self (call_locals self true_classes drawn).

(** [a] and [b] agree within the relative tolerance [tol]. *)
Definition rel_close (tol a b : R) : Prop :=
  Rabs (a - b) <= tol * Rmax (Rabs a) (Rabs b).

(** An array whose entries all satisfy [P]. *)
Definition all_entries (P : xreal -> Prop) (a : NDArray) : Prop :=
  Forall P (data a).

(** A finite entry inside the closed interval [[lo, hi]]. *)
Definition finite_in (lo hi : R) (x : xreal) : Prop :=
  exists r, x = Fin r /\ lo <= r <= hi.

(** An entry that holds the class index [c]. *)
Definition holds_class (range_max : Z) (x : xreal) : Prop :=
  exists c, x = Fin (IZR c) /\ (0 <= c < range_max)%Z.

(* ================================================================== *)
(** ** Test data *)

(** The end-to-end example of the specification: [range_max = 10],
    [num_sampled = 3], [true_classes = [0, 0, 5]]. *)
Definition example_true_classes : NDArray := array [0; 0; 5]%Z int64.

(** A draw of three distinct classes in three tries, and one that needed
    five tries. *)
Definition example_draw_exact : list Z * Z := ([1; 4; 7]%Z, 3%Z).
Definition example_draw_rejected : list Z * Z := ([0; 2; 1]%Z, 5%Z).

(** A float64 array of two probabilities. *)
Definition example_prob : NDArray :=
  {| dtype := float64; shape := [2%nat]; data := [Fin (/ 2); Fin 1] |}.

(** The last class of [range_max = 10], and a draw that took ten million
    tries. *)
Definition extreme_classes : NDArray := array [9]%Z int64.
Definition example_draw_extreme : list Z * Z := ([9; 0; 3]%Z, 10000000%Z).

(** The single true class [0]. *)
Definition first_class : NDArray := array [0]%Z int64.

(** A true-class array with an entry outside [[0, 10)]. *)
Definition out_of_range_classes : NDArray := array [10]%Z int64.

(* ================================================================== *)
(** ** Facts on ideal floats *)

Section XRealFacts.

Lemma Rsign_Gt (r : R) : 0 < r -> Rsign r = Gt.
Proof.
  intros Hr. unfold Rsign.
  destruct (total_order_T r 0) as [[Hlt | Heq] | Hgt]; try reflexivity; lra.
Qed.

Lemma Rsign_Lt (r : R) : r < 0 -> Rsign r = Lt.
Proof.
  intros Hr. unfold Rsign.
  destruct (total_order_T r 0) as [[Hlt | Heq] | Hgt]; try reflexivity; lra.
Qed.

Lemma Rsign_Eq (r : R) : r = 0 -> Rsign r = Eq.
Proof.
  intros Hr. unfold Rsign.
  destruct (total_order_T r 0) as [[Hlt | Heq] | Hgt]; try reflexivity; lra.
Qed.

Lemma xmul_minus_one (x : xreal) : xmul x (Fin (-1)) = xneg x.
Proof.
  destruct x as [r | | |]; simpl; try reflexivity.
  - f_equal. ring.
  - rewrite Rsign_Lt by lra. reflexivity.
  - rewrite Rsign_Lt by lra. reflexivity.
Qed.

Lemma xdiv_Fin (a b : R) : 0 < b -> xdiv (Fin a) (Fin b) = Fin (a / b).
Proof. intros Hb. simpl. rewrite (Rsign_Gt b Hb). reflexivity. Qed.

Lemma xlog_Fin (a : R) : 0 < a -> xlog (Fin a) = Fin (ln a).
Proof. intros Ha. simpl. rewrite (Rsign_Gt a Ha). reflexivity. Qed.

Lemma xlog1p_Fin (a : R) : -1 < a -> xlog1p (Fin a) = Fin (ln (1 + a)).
Proof. intros Ha. simpl. rewrite Rsign_Gt by lra. reflexivity. Qed.

(** [exp (n * ln x)] is the [n]-th power of a positive [x]. *)
Lemma exp_mul_ln_pow (n : Z) (x : R) :
  (0 <= n)%Z -> 0 < x -> exp (IZR n * ln x) = x ^ Z.to_nat n.
Proof.
  intros Hn Hx.
  rewrite <- (Z2Nat.id n Hn) at 1.
  rewrite <- INR_IZR_INZ.
  rewrite <- (Rpower_pow (Z.to_nat n) x Hx).
  reflexivity.
Qed.

(** The general branch on a probability below one. *)
Lemma expected_general_lt1 (n k : Z) (p : R) :
  n <> k -> (0 <= n)%Z -> p < 1 ->
  expected n k (Fin p) = Fin (general_formula p n).
Proof.
  intros Hnk Hn Hp. unfold expected, general_formula.
  apply Z.eqb_neq in Hnk. rewrite Hnk.
  rewrite xmul_minus_one. simpl xneg at 2.
  rewrite xlog1p_Fin by lra. simpl.
  f_equal.
  replace (1 + - p) with (1 - p) by ring.
  rewrite exp_mul_ln_pow by (assumption || lra).
  ring.
Qed.

(** The general branch on probability one: [log1p(-1)] is [-inf]. *)
Lemma expected_general_eq1 (n k : Z) :
  n <> k -> (1 <= n)%Z ->
  expected n k (Fin 1) = Fin (general_formula 1 n).
Proof.
  intros Hnk Hn. unfold expected, general_formula.
  apply Z.eqb_neq in Hnk. rewrite Hnk.
  rewrite xmul_minus_one. simpl xneg at 2. simpl xlog1p.
  rewrite Rsign_Eq by lra. simpl xmul.
  rewrite Rsign_Gt by (apply IZR_lt; lia). simpl.
  f_equal.
  destruct (Z.to_nat n) as [| m] eqn:Hm; [lia |].
  simpl. ring.
Qed.

Lemma Int_part_IZR (z : Z) : Int_part (IZR z) = z.
Proof. symmetry. apply Int_part_spec. lra. Qed.

(** Truncation leaves an integer alone. *)
Lemma Rtrunc_IZR (z : Z) : Rtrunc (IZR z) = z.
Proof.
  unfold Rtrunc. destruct (Rsign (IZR z)).
  - apply Int_part_IZR.
  - rewrite <- opp_IZR, Int_part_IZR. lia.
  - apply Int_part_IZR.
Qed.

Lemma expected_fast (n : Z) (p : R) :
  expected n n (Fin p) = Fin (fast_path p n).
Proof.
  unfold expected, fast_path. rewrite Z.eqb_refl. reflexivity.
Qed.

End XRealFacts.

(* ================================================================== *)
(** ** The base distribution over the reals *)

Section BaseDistribution.

Lemma ratio_unfold (c : Z) :
  (0 <= c)%Z -> IZR (c + 2) / IZR (c + 1) = 1 + / (IZR c + 1).
Proof.
  intros Hc. apply IZR_le in Hc.
  rewrite !plus_IZR. field. lra.
Qed.

Lemma ratio_gt_1 (c : Z) : (0 <= c)%Z -> 1 < IZR (c + 2) / IZR (c + 1).
Proof.
  intros Hc. rewrite (ratio_unfold c Hc). apply IZR_le in Hc.
  assert (0 < / (IZR c + 1)) by (apply Rinv_0_lt_compat; lra).
  lra.
Qed.

Lemma ratio_le_2 (c : Z) : (0 <= c)%Z -> IZR (c + 2) / IZR (c + 1) <= 2.
Proof.
  intros Hc. rewrite (ratio_unfold c Hc). apply IZR_le in Hc.
  assert (/ (IZR c + 1) <= / 1) by (apply Rinv_le_contravar; lra).
  rewrite Rinv_1 in *. lra.
Qed.

Lemma ratio_decreasing (c1 c2 : Z) :
  (0 <= c1 < c2)%Z ->
  IZR (c2 + 2) / IZR (c2 + 1) < IZR (c1 + 2) / IZR (c1 + 1).
Proof.
  intros [H1 H12].
  rewrite (ratio_unfold c1), (ratio_unfold c2) by lia.
  apply IZR_le in H1. apply IZR_lt in H12.
  assert (/ (IZR c2 + 1) < / (IZR c1 + 1))
    by (apply Rinv_lt_contravar; nra).
  lra.
Qed.

Lemma ln_range_pos (range_max : Z) :
  (1 <= range_max)%Z -> 0 < ln (IZR (range_max + 1)).
Proof.
  intros Hr. rewrite <- ln_1. apply ln_increasing; [lra |].
  apply IZR_lt. lia.
Qed.

Lemma log_uniform_prob_pos (range_max c : Z) :
  (1 <= range_max)%Z -> (0 <= c)%Z -> 0 < log_uniform_prob range_max c.
Proof.
  intros Hr Hc. unfold log_uniform_prob.
  apply Rdiv_lt_0_compat; [| apply ln_range_pos; assumption].
  rewrite <- ln_1. apply ln_increasing; [lra | apply ratio_gt_1; assumption].
Qed.

Lemma ln_le_compat (x y : R) : 0 < x -> x <= y -> ln x <= ln y.
Proof.
  intros Hx [Hlt | Heq].
  - left. apply ln_increasing; assumption.
  - right. rewrite Heq. reflexivity.
Qed.

Lemma log_uniform_prob_le_1 (range_max c : Z) :
  (0 <= c < range_max)%Z -> log_uniform_prob range_max c <= 1.
Proof.
  intros [Hc Hr]. unfold log_uniform_prob.
  assert (Hpos : 0 < ln (IZR (range_max + 1))) by (apply ln_range_pos; lia).
  apply (Rmult_le_reg_r (ln (IZR (range_max + 1)))); [assumption |].
  unfold Rdiv. rewrite Rmult_assoc, Rinv_l, Rmult_1_r, Rmult_1_l by lra.
  apply ln_le_compat.
  - pose proof (ratio_gt_1 c Hc). lra.
  - pose proof (ratio_le_2 c Hc).
    assert (2 <= IZR (range_max + 1)) by (apply IZR_le; lia). lra.
Qed.

Lemma log_uniform_prob_lt_1 (range_max c : Z) :
  (0 <= c < range_max)%Z -> (2 <= range_max)%Z ->
  log_uniform_prob range_max c < 1.
Proof.
  intros [Hc Hr] H2. unfold log_uniform_prob.
  assert (Hpos : 0 < ln (IZR (range_max + 1))) by (apply ln_range_pos; lia).
  apply (Rmult_lt_reg_r (ln (IZR (range_max + 1)))); [assumption |].
  unfold Rdiv. rewrite Rmult_assoc, Rinv_l, Rmult_1_r, Rmult_1_l by lra.
  apply ln_increasing.
  - pose proof (ratio_gt_1 c Hc). lra.
  - pose proof (ratio_le_2 c Hc).
    assert (3 <= IZR (range_max + 1)) by (apply IZR_le; lia). lra.
Qed.

(** With a single class the base probability of class [0] is one. *)
Lemma log_uniform_prob_single : log_uniform_prob 1 0 = 1.
Proof.
  unfold log_uniform_prob. simpl.
  replace (2 / 1) with 2 by field.
  apply Rinv_r.
  assert (0 < ln 2) by (rewrite <- ln_1; apply ln_increasing; lra). lra.
Qed.

Lemma log_uniform_prob_decreasing (range_max c1 c2 : Z) :
  (1 <= range_max)%Z -> (0 <= c1 < c2)%Z ->
  log_uniform_prob range_max c2 < log_uniform_prob range_max c1.
Proof.
  intros Hr H12. unfold log_uniform_prob.
  apply Rmult_lt_compat_r.
  - apply Rinv_0_lt_compat, ln_range_pos. assumption.
  - apply ln_increasing.
    + assert (1 < IZR (c2 + 2) / IZR (c2 + 1)) by (apply ratio_gt_1; lia). lra.
    + apply ratio_decreasing. assumption.
Qed.

(** With four outcomes ([range_max = 3]) class [0] has probability one half. *)
Lemma log_uniform_prob_3_0 : log_uniform_prob 3 0 = / 2.
Proof.
  unfold log_uniform_prob. simpl.
  replace (2 / 1) with 2 by field.
  replace 4 with (2 * 2) by ring.
  rewrite ln_mult by lra.
  assert (0 < ln 2) by (rewrite <- ln_1; apply ln_increasing; lra).
  field. lra.
Qed.

(** The array code on an in-range class index computes the base
    probability. *)
Lemma base_prob_class (range_max c : Z) :
  (1 <= range_max)%Z -> (0 <= c)%Z ->
  base_prob (ln (IZR (range_max + 1))) (Fin (IZR c))
  = Fin (log_uniform_prob range_max c).
Proof.
  intros Hr Hc. unfold base_prob, log_uniform_prob.
  pose proof (ratio_gt_1 c Hc) as Hratio.
  assert (Hc' : 0 <= IZR c) by (apply IZR_le; assumption).
  simpl xadd.
  rewrite xdiv_Fin by lra.
  replace (IZR c + 2) with (IZR (c + 2)) by (rewrite plus_IZR; reflexivity).
  replace (IZR c + 1) with (IZR (c + 1)) by (rewrite plus_IZR; reflexivity).
  rewrite xlog_Fin by lra.
  rewrite xdiv_Fin by (apply ln_range_pos; assumption).
  reflexivity.
Qed.

End BaseDistribution.

(* ================================================================== *)
(** ** From arrays to entries *)

Section ArrayFacts.

Lemma cast_elem_float (d : DType) (x : xreal) :
  is_float d = true -> cast_elem d x = x.
Proof. intros Hd. unfold cast_elem. rewrite Hd. reflexivity. Qed.

Lemma data_nd_map (f : xreal -> xreal) (a : NDArray) :
  is_float (dtype a) = true -> data (nd_map f a) = map f (data a).
Proof.
  intros Hd. unfold nd_map. simpl.
  apply map_ext. intros x. apply cast_elem_float. assumption.
Qed.

Lemma combine_map_same {A B C : Type} (f : A -> B) (g : A -> C) (l : list A) :
  combine (map f l) (map g l) = map (fun x => (f x, g x)) l.
Proof.
  induction l as [| x l IH]; simpl; [reflexivity | rewrite IH; reflexivity].
Qed.

Lemma data_astype_float (d : DType) (a : NDArray) :
  is_float d = true -> data (astype d a) = data a.
Proof.
  intros Hd. unfold astype. simpl.
  rewrite <- (map_id (data a)) at 2.
  apply map_ext. intros x. apply cast_elem_float. assumption.
Qed.

Lemma data_astype (d : DType) (a : NDArray) :
  data (astype d a) = map (cast_elem d) (data a).
Proof. reflexivity. Qed.

Lemma shape_astype (d : DType) (a : NDArray) : shape (astype d a) = shape a.
Proof. reflexivity. Qed.

Lemma dtype_astype (d : DType) (a : NDArray) : dtype (astype d a) = d.
Proof. reflexivity. Qed.

Lemma dtype_prob_helper (n k : Z) (a : NDArray) :
  dtype (_prob_helper n k a) = dtype a.
Proof. unfold _prob_helper. destruct (n =? k)%Z; reflexivity. Qed.

Lemma shape_prob_helper (n k : Z) (a : NDArray) :
  shape (_prob_helper n k a) = shape a.
Proof. unfold _prob_helper. destruct (n =? k)%Z; reflexivity. Qed.

(** [_prob_helper] on a float array is [expected] on each entry. *)
Lemma data_prob_helper (n k : Z) (a : NDArray) :
  is_float (dtype a) = true ->
  data (_prob_helper n k a) = map (expected n k) (data a).
Proof.
  intros Hd. unfold _prob_helper, expected.
  destruct (n =? k)%Z.
  - unfold mul_scalar. rewrite data_nd_map by assumption. reflexivity.
  - unfold mul_scalar, expm1, rmul_scalar, log1p, neg.
    rewrite !data_nd_map by assumption.
    rewrite !map_map. reflexivity.
Qed.

(** The probability expression of lines 88 and 93 on a float array. *)
Lemma data_base_prob (log_range : R) (a : NDArray) :
  is_float (dtype a) = true ->
  data (div_scalar (log (div (add_scalar a 2) (add_scalar a 1))) log_range)
  = map (base_prob log_range) (data a).
Proof.
  intros Hd. unfold div_scalar, log, div.
  rewrite !data_nd_map by assumption.
  unfold nd_map2, add_scalar. simpl.
  rewrite combine_map_same, !map_map.
  apply map_ext. intros x. unfold base_prob.
  rewrite !cast_elem_float by assumption. reflexivity.
Qed.

Variable self : LogUniformSampler.
Variable true_classes : NDArray.
Variable drawn : list Z * Z.

Lemma num_tries_locals :
  num_tries (call_locals self true_classes drawn) = snd drawn.
Proof. destruct drawn. reflexivity. Qed.

Lemma sampled_classes_locals :
  sampled_classes (call_locals self true_classes drawn)
  = array (fst drawn) int64.
Proof. destruct drawn. reflexivity. Qed.

Lemma data_prob_true :
  data (prob_true (call_locals self true_classes drawn))
  = map (base_prob (_log_range self)) (data true_classes).
Proof.
  destruct drawn as [sampled tries]. simpl prob_true.
  rewrite data_base_prob by reflexivity.
  rewrite data_astype_float by reflexivity. reflexivity.
Qed.

Lemma data_prob_sampled :
  data (prob_sampled (call_locals self true_classes drawn))
  = map (fun c => base_prob (_log_range self) (Fin (IZR c))) (fst drawn).
Proof.
  destruct drawn as [sampled tries]. simpl prob_sampled.
  rewrite data_base_prob by reflexivity.
  rewrite data_astype_float by reflexivity.
  unfold array. simpl. rewrite map_map. reflexivity.
Qed.

Lemma dtype_prob_true :
  dtype (prob_true (call_locals self true_classes drawn)) = float64.
Proof. destruct drawn. reflexivity. Qed.

Lemma dtype_prob_sampled :
  dtype (prob_sampled (call_locals self true_classes drawn)) = float64.
Proof. destruct drawn. reflexivity. Qed.

Lemma count_true_locals :
  count_true (call_locals self true_classes drawn)
  = _prob_helper (snd drawn) (_num_sampled self)
      (prob_true (call_locals self true_classes drawn)).
Proof. destruct drawn. reflexivity. Qed.

Lemma count_sampled_locals :
  count_sampled (call_locals self true_classes drawn)
  = _prob_helper (snd drawn) (_num_sampled self)
      (prob_sampled (call_locals self true_classes drawn)).
Proof. destruct drawn. reflexivity. Qed.

Lemma data_count_true :
  data (count_true (call_locals self true_classes drawn))
  = map (fun x => expected (snd drawn) (_num_sampled self)
                           (base_prob (_log_range self) x))
        (data true_classes).
Proof.
  rewrite count_true_locals.
  rewrite data_prob_helper by (rewrite dtype_prob_true; reflexivity).
  rewrite data_prob_true, map_map. reflexivity.
Qed.

Lemma data_count_sampled :
  data (count_sampled (call_locals self true_classes drawn))
  = map (fun c => expected (snd drawn) (_num_sampled self)
                           (base_prob (_log_range self) (Fin (IZR c))))
        (fst drawn).
Proof.
  rewrite count_sampled_locals.
  rewrite data_prob_helper by (rewrite dtype_prob_sampled; reflexivity).
  rewrite data_prob_sampled, map_map. reflexivity.
Qed.

Lemma shape_count_true :
  shape (count_true (call_locals self true_classes drawn))
  = shape true_classes.
Proof.
  rewrite count_true_locals, shape_prob_helper.
  destruct drawn. reflexivity.
Qed.

Lemma shape_count_sampled :
  shape (count_sampled (call_locals self true_classes drawn))
  = [length (fst drawn)].
Proof.
  rewrite count_sampled_locals, shape_prob_helper.
  destruct drawn. reflexivity.
Qed.

End ArrayFacts.


(* ================================================================== *)
(** ** Construction *)

Section Construction.

Context {St : Type} {CS : CSampler St}.

Lemma init_fields (range_max num_sampled : Z) (dtype_arg : option DType)
    (seed : Z) (self : LogUniformSampler) (s0 : St) :
  __init__ range_max num_sampled dtype_arg seed = Ok (self, s0) ->
  (0 <= range_max)%Z
  /\ _num_sampled self = num_sampled
  /\ _log_range self = ln (IZR (range_max + 1))
  /\ _dtype self = match dtype_arg with None => float32 | Some d => d end
  /\ cs_new range_max seed = Ok s0.
Proof.
  unfold __init__, math_log.
  destruct (range_max + 1 <=? 0)%Z eqn:Hle; simpl; [discriminate |].
  destruct (cs_new range_max seed) as [s | e |]; simpl; try discriminate.
  intros H. injection H as <- <-. simpl.
  apply Z.leb_gt in Hle.
  repeat split; try reflexivity. lia.
Qed.

Lemma run_call (self : LogUniformSampler) (true_classes : NDArray) (s : St) :
  run (__call__ self true_classes) s
  = match sample_unique (_num_sampled self) s with
    | (Ok drawn, s') =>
        (Ok (call_return self (call_locals self true_classes drawn)), s', 1%nat)
    | (Raise e, s') => (Raise e, s', 1%nat)
    | (Diverge, s') => (Diverge, s', 1%nat)
    end.
Proof.
  simpl. destruct (sample_unique (_num_sampled self) s) as [[drawn | e |] s'];
    reflexivity.
Qed.

End Construction.

(* ================================================================== *)
(** ** The expected-count estimator *)

(** C1.  On a float array of probabilities, [_prob_helper] yields for every
    entry [p] the product [p * num_sampled] when the number of tries equals
    [num_sampled], and [-(expm1(num_tries * log1p(-p)))] otherwise; on a
    probability [0 <= p <= 1] the latter is [1 - (1 - p) ^ num_tries]
    (for [p = 1] this needs at least one try). *)
Theorem prob_helper_formula (num_tries num_sampled : Z) (prob : NDArray) :
  is_float (dtype prob) = true ->
  (num_tries = num_sampled ->
     data (_prob_helper num_tries num_sampled prob)
     = map (fun p => xmul p (Fin (IZR num_sampled))) (data prob))
  /\ (num_tries <> num_sampled ->
        data (_prob_helper num_tries num_sampled prob)
        = map (fun p => xneg (xexpm1 (xmul (Fin (IZR num_tries))
                                           (xlog1p (xneg p)))))
              (data prob))
  /\ (forall (i : nat) (p : R),
        nth_error (data prob) i = Some (Fin p) ->
        (num_tries = num_sampled ->
           nth_error (data (_prob_helper num_tries num_sampled prob)) i
           = Some (Fin (fast_path p num_sampled)))
        /\ (num_tries <> num_sampled ->
            0 <= p <= 1 -> (0 <= num_tries)%Z ->
            p < 1 \/ (1 <= num_tries)%Z ->
            nth_error (data (_prob_helper num_tries num_sampled prob)) i
            = Some (Fin (general_formula p num_tries)))).
Proof.
  intros Hf. rewrite (data_prob_helper _ _ _ Hf).
  split; [| split].
  - intros ->. apply map_ext. intros p.
    unfold expected. rewrite Z.eqb_refl. reflexivity.
  - intros Hne. apply map_ext. intros p.
    unfold expected. apply Z.eqb_neq in Hne. rewrite Hne.
    apply xmul_minus_one.
  - intros i p Hi. split.
    + intros ->. rewrite (map_nth_error _ _ _ Hi), expected_fast. reflexivity.
    + intros Hne [Hp0 Hp1] Hn Hcase.
      rewrite (map_nth_error _ _ _ Hi). f_equal.
      destruct (Rle_lt_or_eq_dec p 1 Hp1) as [Hlt | ->].
      * apply expected_general_lt1; assumption.
      * destruct Hcase as [Habs | Hn1]; [lra |].
        apply expected_general_eq1; assumption.
Qed.

Lemma prob_helper_formula_witness :
  data (_prob_helper 5 3 example_prob)
  = map (fun p => xneg (xexpm1 (xmul (Fin 5) (xlog1p (xneg p)))))
        (data example_prob)
  /\ nth_error (data (_prob_helper 3 3 example_prob)) 0
     = Some (Fin (fast_path (/ 2) 3))
  /\ nth_error (data (_prob_helper 5 3 example_prob)) 1
     = Some (Fin (general_formula 1 5)).
Proof.
  destruct (prob_helper_formula 5 3 example_prob eq_refl) as (_ & Hgen & Hat5).
  destruct (prob_helper_formula 3 3 example_prob eq_refl) as (_ & _ & Hat3).
  split; [| split].
  - apply Hgen. discriminate.
  - apply (Hat3 0%nat (/ 2) eq_refl). reflexivity.
  - apply (Hat5 1%nat 1 eq_refl).
    + discriminate.
    + lra.
    + lia.
    + right. lia.
Defined.

(* ================================================================== *)
(** ** The base probability inside a call *)

(** C2.  Whatever output dtype the sampler was constructed with, a call
    converts the classes to float64 and computes the probabilities as float64
    arrays; the probability of a true or sampled class [c] of
    [[0, range_max)] is [ln((c+2)/(c+1)) / ln(range_max+1)]. *)
Theorem base_probability_float64 {St : Type} {CS : CSampler St}
    (range_max num_sampled : Z) (dtype_arg : option DType) (seed : Z)
    (self : LogUniformSampler) (s0 : St)
    (true_classes : NDArray) (drawn : list Z * Z) :
  __init__ range_max num_sampled dtype_arg seed = Ok (self, s0) ->
  let l := call_locals self true_classes drawn in
  dtype (true_cls l) = float64
  /\ dtype (sampled_cls_fp64 l) = float64
  /\ dtype (prob_true l) = float64
  /\ dtype (prob_sampled l) = float64
  /\ (forall (i : nat) (c : Z),
        (0 <= c < range_max)%Z ->
        nth_error (data true_classes) i = Some (Fin (IZR c)) ->
        nth_error (data (prob_true l)) i
        = Some (Fin (log_uniform_prob range_max c)))
  /\ (forall (i : nat) (c : Z),
        (0 <= c < range_max)%Z ->
        nth_error (fst drawn) i = Some c ->
        nth_error (data (prob_sampled l)) i
        = Some (Fin (log_uniform_prob range_max c))).
Proof.
  intros Hinit l. subst l.
  destruct (init_fields _ _ _ _ _ _ Hinit) as (_ & _ & Hlog & _).
  repeat split.
  - destruct drawn; reflexivity.
  - destruct drawn; reflexivity.
  - apply dtype_prob_true.
  - apply dtype_prob_sampled.
  - intros i c Hc Hi.
    rewrite data_prob_true, (map_nth_error _ _ _ Hi), Hlog.
    rewrite base_prob_class by lia. reflexivity.
  - intros i c Hc Hi.
    rewrite data_prob_sampled, (map_nth_error _ _ _ Hi), Hlog.
    rewrite base_prob_class by lia. reflexivity.
Qed.

Lemma base_probability_float64_witness :
  exists self : LogUniformSampler,
    @__init__ _ scripted_sampler 10 3 (Some int32) 1 = Ok (self, [])
    /\ dtype (prob_true (call_locals self example_true_classes
                           example_draw_exact)) = float64
    /\ nth_error (data (prob_true (call_locals self example_true_classes
                                     example_draw_exact))) 2
       = Some (Fin (log_uniform_prob 10 5))
    /\ nth_error (data (prob_sampled (call_locals self example_true_classes
                                        example_draw_exact))) 1
       = Some (Fin (log_uniform_prob 10 4)).
Proof.
  eexists. split; [reflexivity |].
  destruct (@base_probability_float64 _ scripted_sampler 10 3 (Some int32) 1
              _ [] example_true_classes example_draw_exact eq_refl)
    as (_ & _ & Hd & _ & Ht & Hs).
  split; [exact Hd | split].
  - apply Ht; [lia | reflexivity].
  - apply Hs; [lia | reflexivity].
Defined.

(* ================================================================== *)
(** ** One draw per call *)

(** What a call returns once [sample_unique] has answered. *)
Lemma run_call_returns {St : Type} {CS : CSampler St}
    (self : LogUniformSampler) (true_classes : NDArray) (s s' : St)
    (sampled : list Z) (attempts : Z) :
  sample_unique (_num_sampled self) s = (Ok (sampled, attempts), s') ->
  exists samples expected_count_true expected_count_sample : NDArray,
    run (__call__ self true_classes) s
    = (Ok (samples, expected_count_true, expected_count_sample), s', 1%nat)
    /\ data expected_count_true
       = map (fun x => cast_elem (_dtype self)
                (expected attempts (_num_sampled self)
                   (base_prob (_log_range self) x)))
             (data true_classes)
    /\ data expected_count_sample
       = map (fun c => cast_elem (_dtype self)
                (expected attempts (_num_sampled self)
                   (base_prob (_log_range self) (Fin (IZR c)))))
             sampled
    /\ shape expected_count_true = shape true_classes
    /\ shape expected_count_sample = [length sampled].
Proof.
  intros Hs. rewrite run_call, Hs.
  eexists _, _, _. split; [reflexivity |].
  rewrite !data_astype, !shape_astype.
  rewrite data_count_true, data_count_sampled, !map_map.
  rewrite shape_count_true, shape_count_sampled.
  repeat split.
Qed.

(** C3.  Running a call invokes [sample_unique] exactly once, whatever it
    answers.  When it answers [(sampled, attempts)], the call returns, and
    every entry of both expected-count arrays is computed from that one
    [attempts]: the entries of [expected_count_true] from the entries of
    [true_classes], those of [expected_count_sample] from the sampled
    classes; [expected_count_true] has the shape of [true_classes]. *)
Theorem call_samples_once {St : Type} {CS : CSampler St}
    (self : LogUniformSampler) (true_classes : NDArray) (s : St) :
  snd (run (__call__ self true_classes) s) = 1%nat
  /\ (forall (sampled : list Z) (attempts : Z) (s' : St),
        sample_unique (_num_sampled self) s = (Ok (sampled, attempts), s') ->
        exists samples expected_count_true expected_count_sample : NDArray,
          run (__call__ self true_classes) s
          = (Ok (samples, expected_count_true, expected_count_sample), s', 1%nat)
          /\ data expected_count_true
             = map (fun x => cast_elem (_dtype self)
                      (expected attempts (_num_sampled self)
                         (base_prob (_log_range self) x)))
                   (data true_classes)
          /\ data expected_count_sample
             = map (fun c => cast_elem (_dtype self)
                      (expected attempts (_num_sampled self)
                         (base_prob (_log_range self) (Fin (IZR c)))))
                   sampled
          /\ shape expected_count_true = shape true_classes
          /\ shape expected_count_sample = [length sampled]).
Proof.
  split.
  - rewrite run_call.
    destruct (sample_unique (_num_sampled self) s) as [[drawn | e |] s'];
      reflexivity.
  - intros sampled attempts s' Hs. apply run_call_returns. exact Hs.
Qed.

Lemma call_samples_once_witness :
  exists samples expected_count_true expected_count_sample : NDArray,
    @run _ scripted_sampler _
      (__call__ {| _num_sampled := 3; _log_range := ln 11; _dtype := float32 |}
                example_true_classes)
      [example_draw_rejected]
    = (Ok (samples, expected_count_true, expected_count_sample), [], 1%nat)
    /\ shape expected_count_true = [3%nat].
Proof.
  destruct (@call_samples_once _ scripted_sampler
              {| _num_sampled := 3; _log_range := ln 11; _dtype := float32 |}
              example_true_classes [example_draw_rejected])
    as (_ & Hok).
  destruct (Hok [0; 2; 1]%Z 5%Z [] eq_refl)
    as (sc & ct & cs & Hrun & _ & _ & Hshape & _).
  exists sc, ct, cs. split; [exact Hrun | exact Hshape].
Defined.

(* ================================================================== *)
(** ** The conversion of the outputs *)

(** C6 fails as stated: constructed without a dtype, the sampler returns the
    sampled classes as a float32 array, not as integers. *)
Lemma default_samples_are_float32 :
  exists (self : LogUniformSampler)
         (samples expected_count_true expected_count_sample : NDArray),
    @__init__ _ scripted_sampler 10 3 None 1 = Ok (self, [])
    /\ @run _ scripted_sampler _ (__call__ self example_true_classes)
         [example_draw_exact]
       = (Ok (samples, expected_count_true, expected_count_sample), [], 1%nat)
    /\ dtype samples = float32
    /\ is_float (dtype samples) = true.
Proof.
  eexists _, _, _, _.
  split; [reflexivity |].
  split; [reflexivity |].
  split; reflexivity.
Qed.

(** C6, amended.  Every call that returns has converted all three outputs,
    the sampled classes included, to the configured dtype, which is float32
    when none was given; until that conversion the sampled classes are an
    int64 array. *)
Theorem outputs_have_configured_dtype {St : Type} {CS : CSampler St}
    (range_max num_sampled : Z) (dtype_arg : option DType) (seed : Z)
    (self : LogUniformSampler) (s0 s s' : St) (true_classes : NDArray)
    (samples expected_count_true expected_count_sample : NDArray) (n : nat) :
  __init__ range_max num_sampled dtype_arg seed = Ok (self, s0) ->
  run (__call__ self true_classes) s
  = (Ok (samples, expected_count_true, expected_count_sample), s', n) ->
  let d := match dtype_arg with None => float32 | Some d => d end in
  dtype samples = d
  /\ dtype expected_count_true = d
  /\ dtype expected_count_sample = d
  /\ (forall drawn : list Z * Z,
        dtype (sampled_classes (call_locals self true_classes drawn)) = int64).
Proof.
  intros Hinit Hrun d. subst d.
  destruct (init_fields _ _ _ _ _ _ Hinit) as (_ & _ & _ & Hd & _).
  rewrite run_call in Hrun.
  destruct (sample_unique (_num_sampled self) s) as [[drawn | e |] s1];
    try discriminate.
  injection Hrun as <- <- <- _ _.
  rewrite !dtype_astype, Hd.
  repeat split. intros [sampled tries]. reflexivity.
Qed.

Lemma outputs_have_configured_dtype_witness :
  exists (self : LogUniformSampler)
         (samples expected_count_true expected_count_sample : NDArray),
    @run _ scripted_sampler _ (__call__ self example_true_classes)
      [example_draw_exact]
    = (Ok (samples, expected_count_true, expected_count_sample), [], 1%nat)
    /\ dtype samples = int32
    /\ dtype expected_count_true = int32
    /\ dtype expected_count_sample = int32.
Proof.
  eexists _, _, _, _. split; [reflexivity |].
  destruct (@outputs_have_configured_dtype _ scripted_sampler
              10 3 (Some int32) 1 _ [] [example_draw_exact] []
              example_true_classes _ _ _ 1%nat eq_refl eq_refl)
    as (H1 & H2 & H3 & _).
  split; [exact H1 | split; [exact H2 | exact H3]].
Defined.

(* ================================================================== *)
(** ** Bounds on the expected counts *)

Section Bounds.

Lemma pow_unit_interval (q : R) (n : nat) : 0 <= q <= 1 -> 0 <= q ^ n <= 1.
Proof.
  intros [H0 H1]. split.
  - apply pow_le. assumption.
  - rewrite <- (pow1 n). apply pow_incr. split; assumption.
Qed.

Lemma general_formula_bounds (p : R) (n : Z) :
  0 <= p <= 1 -> 0 <= general_formula p n <= 1.
Proof.
  intros Hp. unfold general_formula.
  assert (H : 0 <= (1 - p) ^ Z.to_nat n <= 1) by (apply pow_unit_interval; lra).
  lra.
Qed.

(** The expected count of an in-range class is finite and at most
    [num_sampled]. *)
Lemma expected_in_range (range_max num_sampled attempts c : Z) :
  (0 <= c < range_max)%Z -> (1 <= num_sampled <= attempts)%Z ->
  finite_in 0 (IZR num_sampled)
    (expected attempts num_sampled
       (base_prob (ln (IZR (range_max + 1))) (Fin (IZR c)))).
Proof.
  intros Hc [Hk Hn].
  rewrite base_prob_class by lia.
  pose proof (log_uniform_prob_pos range_max c ltac:(lia) ltac:(lia)) as Hpos.
  pose proof (log_uniform_prob_le_1 range_max c Hc) as Hle.
  set (p := log_uniform_prob range_max c) in *.
  assert (Hk' : 1 <= IZR num_sampled) by (apply IZR_le; assumption).
  destruct (Z.eq_dec attempts num_sampled) as [-> | Hne].
  - rewrite expected_fast. exists (fast_path p num_sampled).
    split; [reflexivity |]. unfold fast_path. nra.
  - exists (general_formula p attempts).
    pose proof (general_formula_bounds p attempts ltac:(lra)) as Hb.
    split; [| lra].
    destruct (Rle_lt_or_eq_dec p 1 Hle) as [Hlt | Heq].
    + apply expected_general_lt1; [assumption | lia | assumption].
    + rewrite Heq. apply expected_general_eq1; [assumption | lia].
Qed.

End Bounds.

(** C7.  With the output dtype float32 (the default) or float64: when
    [sample_unique] answers with in-range classes and
    [attempts >= num_sampled >= 1], and every entry of [true_classes] is a
    class of [[0, range_max)], the call returns and every entry of both
    expected-count outputs is finite and lies in [[0, num_sampled]].  No
    bound is put on [attempts] or on the class index, so the last class
    [range_max - 1] and ten million tries are included.  (A float16 output
    overflows once a count passes 65504, and a narrow integer wraps, so the
    other dtypes are left out.) *)
Theorem expected_counts_finite_bounded {St : Type} {CS : CSampler St}
    (range_max num_sampled : Z) (dtype_arg : option DType) (seed : Z)
    (self : LogUniformSampler) (s0 s s' : St) (true_classes : NDArray)
    (sampled : list Z) (attempts : Z) :
  __init__ range_max num_sampled dtype_arg seed = Ok (self, s0) ->
  _dtype self = float32 \/ _dtype self = float64 ->
  sample_unique (_num_sampled self) s = (Ok (sampled, attempts), s') ->
  (1 <= num_sampled <= attempts)%Z ->
  all_entries (holds_class range_max) true_classes ->
  Forall (fun c => (0 <= c < range_max)%Z) sampled ->
  exists samples expected_count_true expected_count_sample : NDArray,
    run (__call__ self true_classes) s
    = (Ok (samples, expected_count_true, expected_count_sample), s', 1%nat)
    /\ all_entries (finite_in 0 (IZR num_sampled)) expected_count_true
    /\ all_entries (finite_in 0 (IZR num_sampled)) expected_count_sample.
Proof.
  intros Hinit Hdtype Hdraw Hn Htrue Hsampled.
  destruct (init_fields _ _ _ _ _ _ Hinit) as (_ & Hk & Hlog & _).
  assert (Hf : is_float (_dtype self) = true)
    by (destruct Hdtype as [-> | ->]; reflexivity).
  destruct (run_call_returns self true_classes s s' sampled attempts Hdraw)
    as (sc & ct & cs & Hrun & Hct & Hcs & _).
  exists sc, ct, cs. split; [exact Hrun |].
  unfold all_entries in *. rewrite Hct, Hcs, Hk, Hlog.
  split; apply Forall_map.
  - eapply Forall_impl; [| exact Htrue].
    intros x (c & -> & Hc).
    rewrite cast_elem_float by assumption.
    apply expected_in_range; assumption.
  - eapply Forall_impl; [| exact Hsampled].
    intros c Hc. simpl in Hc.
    rewrite cast_elem_float by assumption.
    apply expected_in_range; assumption.
Qed.

Lemma expected_counts_finite_bounded_witness :
  exists samples expected_count_true expected_count_sample : NDArray,
    @run _ scripted_sampler _
      (__call__ {| _num_sampled := 3; _log_range := ln (IZR (10 + 1));
                   _dtype := float32 |} extreme_classes)
      [example_draw_extreme]
    = (Ok (samples, expected_count_true, expected_count_sample), [], 1%nat)
    /\ all_entries (finite_in 0 3) expected_count_true
    /\ all_entries (finite_in 0 3) expected_count_sample.
Proof.
  apply (@expected_counts_finite_bounded _ scripted_sampler
           10 3 None 1 _ [] [example_draw_extreme] []
           extreme_classes [9; 0; 3]%Z 10000000%Z eq_refl
           (or_introl eq_refl) eq_refl).
  - lia.
  - repeat constructor. exists 9%Z. split; [reflexivity | lia].
  - repeat constructor; lia.
Defined.

(* ================================================================== *)
(** ** Monotonicity *)

Section Monotonicity.

Lemma pow_strict_incr (a b : R) (m : nat) :
  0 <= a < b -> a ^ S m < b ^ S m.
Proof.
  intros [Ha Hab]. induction m as [| m IH].
  - simpl. lra.
  - change (a ^ S (S m)) with (a * a ^ S m).
    change (b ^ S (S m)) with (b * b ^ S m).
    assert (0 <= a ^ S m) by (apply pow_le; assumption).
    nra.
Qed.

(** The general branch written with [exp], for any integer number of
    tries. *)
Lemma expected_general_exp (n k : Z) (p : R) :
  n <> k -> p < 1 ->
  expected n k (Fin p) = Fin (1 - exp (IZR n * ln (1 - p))).
Proof.
  intros Hnk Hp. unfold expected.
  apply Z.eqb_neq in Hnk. rewrite Hnk.
  rewrite xmul_minus_one. simpl xneg at 2.
  rewrite xlog1p_Fin by lra. simpl. f_equal.
  replace (1 + - p) with (1 - p) by ring. ring.
Qed.

(** Both branches are nondecreasing in the probability, strictly so once
    there is at least one try. *)
Lemma expected_monotone_in_prob (n k : Z) (p1 p2 : R) :
  (0 <= n)%Z -> 0 <= p2 < p1 -> p1 < 1 ->
  exists e1 e2 : R,
    expected n k (Fin p1) = Fin e1
    /\ expected n k (Fin p2) = Fin e2
    /\ e2 <= e1
    /\ ((1 <= n)%Z -> e2 < e1).
Proof.
  intros Hn [Hp2 Hp12] Hp1.
  destruct (Z.eq_dec n k) as [<- | Hne].
  - exists (fast_path p1 n), (fast_path p2 n).
    rewrite !expected_fast. unfold fast_path.
    assert (0 <= IZR n) by (apply IZR_le; assumption).
    repeat split; [nra |].
    intros H1. apply IZR_le in H1. nra.
  - exists (general_formula p1 n), (general_formula p2 n).
    rewrite !expected_general_lt1 by (assumption || lra).
    unfold general_formula.
    repeat split.
    + assert ((1 - p1) ^ Z.to_nat n <= (1 - p2) ^ Z.to_nat n)
        by (apply pow_incr; lra).
      lra.
    + intros H1.
      destruct (Z.to_nat n) as [| m] eqn:Hm; [lia |].
      assert ((1 - p1) ^ S m < (1 - p2) ^ S m)
        by (apply pow_strict_incr; lra).
      lra.
Qed.

End Monotonicity.

(** C8.  Inside a call, for two true classes [c1 < c2] of [[0, range_max)]
    below [2^53] (the integers a double holds exactly) the base probability
    of [c1] is at least that of [c2], and for the one nonnegative number of
    tries of that call the expected count of [c1] is at least that of [c2].
    For classes below [2^25], where neighbouring ratios are still distinct
    doubles, the probability of [c1] is strictly larger, and so is its
    expected count when the draw took exactly [num_sampled >= 1] tries, as
    for classes [0] and [5].  (In the general branch the counts of two
    classes can both reach one after many tries, so no strict order is
    stated there.) *)
Theorem smaller_class_higher_count {St : Type} {CS : CSampler St}
    (range_max num_sampled : Z) (dtype_arg : option DType) (seed : Z)
    (self : LogUniformSampler) (s0 : St) (true_classes : NDArray)
    (drawn : list Z * Z) (i j : nat) (c1 c2 : Z) :
  __init__ range_max num_sampled dtype_arg seed = Ok (self, s0) ->
  (0 <= c1 < c2)%Z -> (c2 < range_max)%Z -> (c2 < 2 ^ 53)%Z ->
  nth_error (data true_classes) i = Some (Fin (IZR c1)) ->
  nth_error (data true_classes) j = Some (Fin (IZR c2)) ->
  (0 <= snd drawn)%Z ->
  let l := call_locals self true_classes drawn in
  exists p1 p2 e1 e2 : R,
    nth_error (data (prob_true l)) i = Some (Fin p1)
    /\ nth_error (data (prob_true l)) j = Some (Fin p2)
    /\ p1 = log_uniform_prob range_max c1
    /\ p2 = log_uniform_prob range_max c2
    /\ p1 >= p2
    /\ nth_error (data (count_true l)) i = Some (Fin e1)
    /\ nth_error (data (count_true l)) j = Some (Fin e2)
    /\ e1 >= e2
    /\ ((c2 < 2 ^ 25)%Z -> p1 > p2)
    /\ ((c2 < 2 ^ 25)%Z -> snd drawn = num_sampled -> (1 <= num_sampled)%Z ->
        e1 > e2).
Proof.
  intros Hinit Hc12 Hc2 Hexact Hi Hj Hn l. subst l.
  destruct (init_fields _ _ _ _ _ _ Hinit) as (_ & Hk & Hlog & _).
  pose proof (log_uniform_prob_decreasing range_max c1 c2 ltac:(lia) Hc12)
    as Hdec.
  pose proof (log_uniform_prob_pos range_max c2 ltac:(lia) ltac:(lia)) as Hpos.
  pose proof (log_uniform_prob_lt_1 range_max c1 ltac:(lia) ltac:(lia)) as Hlt.
  destruct (expected_monotone_in_prob (snd drawn) num_sampled
              (log_uniform_prob range_max c1) (log_uniform_prob range_max c2)
              Hn ltac:(lra) Hlt)
    as (e1 & e2 & He1 & He2 & Hle & Hstrict).
  exists (log_uniform_prob range_max c1), (log_uniform_prob range_max c2), e1, e2.
  rewrite data_prob_true, data_count_true, Hlog, Hk.
  rewrite !(map_nth_error _ _ _ Hi), !(map_nth_error _ _ _ Hj).
  rewrite !base_prob_class by lia.
  rewrite He1, He2.
  repeat split; try reflexivity; try lra.
  intros _ Hfast Hk1.
  assert (H1 : (1 <= snd drawn)%Z) by lia.
  apply Hstrict in H1. lra.
Qed.

Lemma smaller_class_higher_count_witness :
  exists (self : LogUniformSampler) (e1 e2 : R),
    nth_error (data (count_true (call_locals self example_true_classes
                                   example_draw_exact))) 0 = Some (Fin e1)
    /\ nth_error (data (count_true (call_locals self example_true_classes
                                      example_draw_exact))) 2 = Some (Fin e2)
    /\ e1 > e2.
Proof.
  destruct (@smaller_class_higher_count _ scripted_sampler 10 3 None 1
              _ [] example_true_classes example_draw_exact
              0%nat 2%nat 0%Z 5%Z eq_refl
              ltac:(lia) ltac:(lia) eq_refl eq_refl eq_refl
              ltac:(simpl; lia))
    as (p1 & p2 & e1 & e2 & _ & _ & _ & _ & _ & H1 & H2 & _ & _ & Hgt).
  eexists _, e1, e2.
  split; [exact H1 | split; [exact H2 |]].
  apply Hgt; [reflexivity | reflexivity | lia].
Defined.

(* ================================================================== *)
(** ** The two branches compared *)

Section Branches.

(** Bernoulli's inequality and its second-order counterpart. *)
Lemma bernoulli_lower (p : R) (n : nat) :
  0 <= p <= 1 -> 1 - INR n * p <= (1 - p) ^ n.
Proof.
  intros Hp. induction n as [| n IH].
  - simpl. lra.
  - rewrite S_INR. change ((1 - p) ^ S n) with ((1 - p) * (1 - p) ^ n).
    pose proof (pos_INR n). nra.
Qed.

Lemma bernoulli_upper (p : R) (n : nat) :
  0 <= p <= 1 ->
  (1 - p) ^ n <= 1 - INR n * p + INR n * (INR n - 1) / 2 * (p * p).
Proof.
  intros Hp. induction n as [| n IH].
  - simpl. lra.
  - rewrite S_INR. change ((1 - p) ^ S n) with ((1 - p) * (1 - p) ^ n).
    pose proof (pos_INR n) as Hn.
    assert (Hnn : 0 <= INR n * (INR n - 1)).
    { destruct n as [| m]; [simpl; lra |].
      rewrite S_INR. pose proof (pos_INR m). nra. }
    assert (Hstep : (1 - p) * (1 - p) ^ n
                    <= (1 - p) * (1 - INR n * p
                                  + INR n * (INR n - 1) / 2 * (p * p)))
      by (apply Rmult_le_compat_l; lra).
    assert (Hcube : 0 <= INR n * (INR n - 1) / 2 * (p * p) * p).
    { apply Rmult_le_pos; [| lra].
      apply Rmult_le_pos; [lra | nra]. }
    nra.
Qed.

Lemma fast_path_vs_general (p : R) (n : Z) :
  0 <= p <= 1 -> (0 <= n)%Z ->
  general_formula p n <= fast_path p n
  /\ fast_path p n <= general_formula p n + IZR (n * (n - 1)) / 2 * (p * p).
Proof.
  intros Hp Hn. unfold general_formula, fast_path.
  pose proof (bernoulli_lower p (Z.to_nat n) Hp) as Hlo.
  pose proof (bernoulli_upper p (Z.to_nat n) Hp) as Hup.
  rewrite INR_IZR_INZ, Z2Nat.id in Hlo, Hup by assumption.
  rewrite mult_IZR, minus_IZR.
  split; lra.
Qed.

End Branches.

(** C4 fails as stated: with [range_max = 3] and [num_sampled = 2] a draw
    without rejection gives class [0] the expected count [1], while the
    general formula gives [3/4]. *)
Lemma fast_path_differs_from_general :
  exists self : LogUniformSampler,
    @__init__ _ scripted_sampler 3 2 None 0 = Ok (self, [])
    /\ nth_error (data (count_true (call_locals self first_class
                                      ([0; 1]%Z, 2%Z)))) 0
       = Some (Fin 1)
    /\ general_formula (log_uniform_prob 3 0) 2 = 3 / 4
    /\ ~ rel_close (1 / 100000) 1 (3 / 4).
Proof.
  eexists. split; [reflexivity |].
  split; [| split].
  - rewrite data_count_true.
    change (Some (expected 2 2 (base_prob (ln (IZR (3 + 1))) (Fin (IZR 0))))
            = Some (Fin 1)).
    rewrite (base_prob_class 3 0) by lia.
    rewrite log_uniform_prob_3_0, expected_fast.
    do 2 f_equal. unfold fast_path. field.
  - rewrite log_uniform_prob_3_0. unfold general_formula. simpl. field.
  - unfold rel_close.
    replace (1 - 3 / 4) with (/ 4) by field.
    rewrite !Rabs_pos_eq by lra.
    rewrite Rmax_left by lra. lra.
Qed.

(** C4, amended.  For every valid configuration and class [c] of
    [[0, range_max)], a call whose draw took exactly [num_sampled] tries
    gives [c] the count [p(c) * num_sampled]; this is never below the general
    value [1 - (1 - p(c)) ^ num_sampled], exceeds it by at most
    [num_sampled * (num_sampled - 1) / 2 * p(c)^2], and equals it when
    [num_sampled = 1]. *)
Theorem fast_path_bounds_general {St : Type} {CS : CSampler St}
    (range_max num_sampled : Z) (dtype_arg : option DType) (seed : Z)
    (self : LogUniformSampler) (s0 : St) (true_classes : NDArray)
    (sampled : list Z) (i : nat) (c : Z) :
  __init__ range_max num_sampled dtype_arg seed = Ok (self, s0) ->
  (1 <= num_sampled <= range_max)%Z ->
  (0 <= c < range_max)%Z ->
  nth_error (data true_classes) i = Some (Fin (IZR c)) ->
  let p := log_uniform_prob range_max c in
  let l := call_locals self true_classes (sampled, num_sampled) in
  nth_error (data (count_true l)) i = Some (Fin (fast_path p num_sampled))
  /\ general_formula p num_sampled <= fast_path p num_sampled
  /\ fast_path p num_sampled
     <= general_formula p num_sampled
        + IZR (num_sampled * (num_sampled - 1)) / 2 * (p * p)
  /\ (num_sampled = 1%Z ->
      fast_path p num_sampled = general_formula p num_sampled).
Proof.
  intros Hinit Hk Hc Hi p l. subst l.
  destruct (init_fields _ _ _ _ _ _ Hinit) as (_ & Hns & Hlog & _).
  pose proof (log_uniform_prob_pos range_max c ltac:(lia) ltac:(lia)) as Hpos.
  pose proof (log_uniform_prob_le_1 range_max c Hc) as Hle.
  fold p in Hpos, Hle.
  destruct (fast_path_vs_general p num_sampled ltac:(lra) ltac:(lia))
    as [Hlo Hup].
  split; [| split; [exact Hlo | split; [exact Hup |]]].
  - rewrite data_count_true, (map_nth_error _ _ _ Hi), Hlog, Hns.
    rewrite base_prob_class by lia. simpl snd.
    rewrite expected_fast. reflexivity.
  - intros ->. simpl in Hup. lra.
Qed.

Lemma fast_path_bounds_general_witness :
  exists self : LogUniformSampler,
    nth_error (data (count_true (call_locals self example_true_classes
                                   example_draw_exact))) 2
    = Some (Fin (fast_path (log_uniform_prob 10 5) 3))
    /\ general_formula (log_uniform_prob 10 5) 3
       <= fast_path (log_uniform_prob 10 5) 3.
Proof.
  destruct (@fast_path_bounds_general _ scripted_sampler 10 3 None 1
              _ [] example_true_classes [1; 4; 7]%Z 2%nat 5%Z eq_refl
              ltac:(lia) ltac:(lia) eq_refl)
    as (Hcount & Hlo & _).
  eexists. split; [exact Hcount | exact Hlo].
Defined.

(** C10.  On a probability [0 < p < 1] the general branch, taken for a
    number of tries other than [num_sampled], is nondecreasing in the number
    of tries and stays below one; the fast path is not bounded by one: in the
    valid configuration [range_max = 3], [num_sampled = 3] it gives class [0]
    the count [3/2]. *)
Theorem general_branch_monotone_in_tries (p : R) (prob : NDArray) (i : nat)
    (num_sampled n1 n2 : Z) :
  0 < p < 1 ->
  is_float (dtype prob) = true ->
  nth_error (data prob) i = Some (Fin p) ->
  n1 <> num_sampled -> n2 <> num_sampled -> (n1 <= n2)%Z ->
  (exists v1 v2 : R,
     nth_error (data (_prob_helper n1 num_sampled prob)) i = Some (Fin v1)
     /\ nth_error (data (_prob_helper n2 num_sampled prob)) i = Some (Fin v2)
     /\ v1 <= v2 /\ v2 <= 1)
  /\ (exists range_max k c : Z,
        (1 <= k <= range_max)%Z /\ (0 <= c < range_max)%Z
        /\ forall (St : Type) (CS : CSampler St) (dtype_arg : option DType)
                  (seed : Z) (self : LogUniformSampler) (s0 : St)
                  (sampled : list Z),
             __init__ range_max k dtype_arg seed = Ok (self, s0) ->
             exists v : R,
               nth_error (data (count_true (call_locals self (array [c] int64)
                                              (sampled, k)))) 0
               = Some (Fin v)
               /\ 1 < v).
Proof.
  intros [Hp0 Hp1] Hf Hi H1 H2 H12. split.
  - exists (1 - exp (IZR n1 * ln (1 - p))), (1 - exp (IZR n2 * ln (1 - p))).
    rewrite !data_prob_helper by assumption.
    rewrite !(map_nth_error _ _ _ Hi).
    rewrite !expected_general_exp by assumption.
    repeat split.
    + assert (Hln : ln (1 - p) < 0)
        by (rewrite <- ln_1; apply ln_increasing; lra).
      apply IZR_le in H12.
      assert (Hle : IZR n2 * ln (1 - p) <= IZR n1 * ln (1 - p)) by nra.
      destruct Hle as [Hlt | Heq].
      * apply exp_increasing in Hlt. lra.
      * rewrite Heq. lra.
    + pose proof (exp_pos (IZR n2 * ln (1 - p))). lra.
  - exists 3%Z, 3%Z, 0%Z.
    split; [lia | split; [lia |]].
    intros St CS dtype_arg seed self s0 sampled Hinit.
    destruct (init_fields _ _ _ _ _ _ Hinit) as (_ & Hns & Hlog & _).
    exists (3 / 2).
    rewrite data_count_true, Hns, Hlog.
    change (Some (expected 3 3 (base_prob (ln (IZR (3 + 1))) (Fin (IZR 0))))
            = Some (Fin (3 / 2)) /\ 1 < 3 / 2).
    rewrite (base_prob_class 3 0) by lia.
    rewrite log_uniform_prob_3_0, expected_fast.
    split; [| lra].
    do 2 f_equal. unfold fast_path. field.
Qed.

Lemma general_branch_monotone_in_tries_witness :
  exists v1 v2 : R,
    nth_error (data (_prob_helper 4 3 example_prob)) 0 = Some (Fin v1)
    /\ nth_error (data (_prob_helper 7 3 example_prob)) 0 = Some (Fin v2)
    /\ v1 <= v2 /\ v2 <= 1.
Proof.
  apply (general_branch_monotone_in_tries (/ 2) example_prob 0%nat 3 4 7).
  - lra.
  - reflexivity.
  - reflexivity.
  - discriminate.
  - discriminate.
  - lia.
Defined.

(* ================================================================== *)
(** ** The native sampler's contract *)

Section Contract.

Import UniqueSampler.

Variable G : Type.
Variable next_uniform : G -> R * G.

Lemma draw_class_in_range (bound : Z) (u : R) :
  (1 <= bound)%Z -> (0 <= draw_class bound u < bound)%Z.
Proof. intros Hb. unfold draw_class. lia. Qed.

Lemma draw_loop_unfold (fuel : nat) (bound k : Z) (accepted : list Z)
    (attempts : Z) (g : G) :
  draw_loop G next_uniform fuel bound k accepted attempts g
  = if (k <=? Z.of_nat (length accepted))%Z then (Ok (accepted, attempts), g)
    else
      match fuel with
      | O => (Diverge, g)
      | S fuel' =>
          let (u, g') := next_uniform g in
          let c := draw_class bound u in
          if existsb (Z.eqb c) accepted
          then draw_loop G next_uniform fuel' bound k accepted
                 (attempts + 1)%Z g'
          else draw_loop G next_uniform fuel' bound k (accepted ++ [c])
                 (attempts + 1)%Z g'
      end.
Proof. destruct fuel; reflexivity. Qed.

(** More fuel does not change an answer. *)
Lemma draw_loop_more_fuel (fuel extra : nat) (bound k : Z) :
  forall (accepted : list Z) (attempts : Z) (g g' : G) (r : list Z * Z),
    draw_loop G next_uniform fuel bound k accepted attempts g = (Ok r, g') ->
    draw_loop G next_uniform (fuel + extra) bound k accepted attempts g
    = (Ok r, g').
Proof.
  induction fuel as [| fuel IH]; intros accepted attempts g g' r;
    rewrite !draw_loop_unfold;
    destruct (k <=? Z.of_nat (length accepted))%Z; try (intros H; exact H).
  - discriminate.
  - cbn [Nat.add].
    destruct (next_uniform g) as [u g1].
    cbv zeta.
    destruct (existsb (Z.eqb (draw_class bound u)) accepted); apply IH.
Qed.

(** An answer of the rejection loop holds [k] distinct classes of
    [[0, range_max)] and counts at least one try per class. *)
Lemma draw_loop_contract (fuel : nat) (bound k : Z) :
  (1 <= bound)%Z ->
  forall (accepted : list Z) (attempts : Z) (g g' : G)
         (sampled : list Z) (tries : Z),
    (Z.of_nat (length accepted) <= k)%Z ->
    Forall (fun c => (0 <= c < bound)%Z) accepted ->
    NoDup accepted ->
    draw_loop G next_uniform fuel bound k accepted attempts g
    = (Ok (sampled, tries), g') ->
    Forall (fun c => (0 <= c < bound)%Z) sampled
    /\ NoDup sampled
    /\ Z.of_nat (length sampled) = k
    /\ (attempts + (k - Z.of_nat (length accepted)) <= tries)%Z.
Proof.
  intros Hb.
  induction fuel as [| fuel IH];
    intros accepted attempts g g' sampled tries Hlen Hin Hnd;
    rewrite draw_loop_unfold;
    destruct (k <=? Z.of_nat (length accepted))%Z eqn:Hk.
  - intros H. injection H as <- <- _. apply Z.leb_le in Hk.
    repeat split; try assumption; lia.
  - discriminate.
  - intros H. injection H as <- <- _. apply Z.leb_le in Hk.
    repeat split; try assumption; lia.
  - apply Z.leb_gt in Hk.
    destruct (next_uniform g) as [u g1]. cbv zeta.
    pose proof (draw_class_in_range bound u Hb) as Hc.
    destruct (existsb (Z.eqb (draw_class bound u)) accepted) eqn:Hex.
    + intros H. apply IH in H; try assumption.
      destruct H as (H1 & H2 & H3 & H4). repeat split; try assumption. lia.
    + intros H. apply IH in H.
      * destruct H as (H1 & H2 & H3 & H4). repeat split; try assumption.
        rewrite length_app in H4. simpl in H4. lia.
      * rewrite length_app. simpl. lia.
      * apply Forall_app. split; [assumption | repeat constructor; lia].
      * apply NoDup_app; [assumption | repeat constructor; intros [] |].
        intros a Ha [<- | []].
        assert (existsb (Z.eqb (draw_class bound u)) accepted = true).
        { apply existsb_exists. exists (draw_class bound u).
          split; [assumption | apply Z.eqb_refl]. }
        congruence.
Qed.

(** [sample_unique(k)] of the specification: an answer holds exactly [k]
    distinct classes of [[0, range_max)] and took at least [k] tries. *)
Lemma spec_sample_unique_contract (fuel : nat) (k : Z) (s s' : state G)
    (sampled : list Z) (tries : Z) :
  (1 <= range_max s)%Z ->
  spec_sample_unique G next_uniform fuel k s = (Ok (sampled, tries), s') ->
  Forall (fun c => (0 <= c < range_max s)%Z) sampled
  /\ NoDup sampled
  /\ Z.of_nat (length sampled) = k
  /\ (1 <= k <= tries)%Z
  /\ range_max s' = range_max s.
Proof.
  intros Hb. unfold spec_sample_unique.
  destruct ((k <=? 0) || (range_max s <? k))%Z eqn:Hbad; [discriminate |].
  apply orb_false_elim in Hbad. destruct Hbad as [Hpos _].
  apply Z.leb_gt in Hpos.
  destruct (draw_loop G next_uniform fuel (range_max s) k [] 0%Z (rng s))
    as [o g] eqn:Hloop.
  intros H. injection H as -> <-.
  assert (Hlen : (Z.of_nat (length (@nil Z)) <= k)%Z) by (simpl; lia).
  destruct (draw_loop_contract fuel (range_max s) k Hb [] 0%Z (rng s) g
              sampled tries Hlen (Forall_nil _) (NoDup_nil _) Hloop)
    as (H1 & H2 & H3 & H4).
  simpl in H4. repeat split; try assumption; lia.
Qed.

(** Whatever it answers, [sample_unique] leaves [range_max] as it was. *)
Lemma spec_sample_unique_keeps_range (fuel : nat) (k : Z) (s s' : state G)
    (o : outcome (list Z * Z)) :
  spec_sample_unique G next_uniform fuel k s = (o, s') ->
  range_max s' = range_max s.
Proof.
  unfold spec_sample_unique.
  destruct ((k <=? 0) || (range_max s <? k))%Z.
  - intros H. injection H as _ <-. reflexivity.
  - destruct (draw_loop G next_uniform fuel (range_max s) k [] 0%Z (rng s))
      as [o1 g].
    intros H. injection H as _ <-. reflexivity.
Qed.

End Contract.

(* ================================================================== *)
(** ** Errors *)

Section Errors.

Import UniqueSampler.

Lemma draw_class_zero (range_max : Z) :
  (1 <= range_max)%Z -> draw_class range_max 0 = 0%Z.
Proof.
  intros Hr. unfold draw_class.
  rewrite Rmult_0_l, exp_0.
  replace (1 - 1) with (IZR 0) by (simpl; ring).
  rewrite Int_part_IZR. lia.
Qed.

(** With the all-zero generator, one draw yields class [0] in one try. *)
Lemma zero_sampler_one_draw (fuel : nat) (bound : Z) :
  (1 <= bound)%Z ->
  @sample_unique _ (zero_sampler (S fuel)) 1
     {| range_max := bound; rng := tt |}
  = (Ok ([0%Z], 1%Z), {| range_max := bound; rng := tt |}).
Proof.
  intros Hr. simpl. unfold spec_sample_unique.
  cbn [range_max rng].
  destruct (bound <? 1)%Z eqn:Hlt; [apply Z.ltb_lt in Hlt; lia |].
  cbn [Z.leb Z.compare orb].
  cbn [draw_loop length Z.of_nat Z.leb Z.compare zero_rng existsb app].
  rewrite (draw_class_zero bound Hr).
  destruct fuel; reflexivity.
Qed.

Variable G : Type.
Variable seed_rng : Z -> G.
Variable next_uniform : G -> R * G.
Variable fuel : nat.

Lemma spec_init_state (range_max num_sampled : Z) (dtype_arg : option DType)
    (seed : Z) (self : LogUniformSampler) (s0 : state G) :
  @__init__ _ (spec_sampler G seed_rng next_uniform fuel)
     range_max num_sampled dtype_arg seed = Ok (self, s0) ->
  (1 <= range_max)%Z
  /\ s0 = {| range_max := range_max; rng := seed_rng seed |}.
Proof.
  intros Hinit.
  destruct (init_fields _ _ _ _ _ _ Hinit) as (_ & _ & _ & _ & Hnew).
  simpl in Hnew. unfold spec_new in Hnew.
  destruct (range_max <=? 0)%Z eqn:Hle; [discriminate |].
  apply Z.leb_gt in Hle. split; [lia | congruence].
Qed.

Lemma spec_sample_unique_rejects (k : Z) (s : state G) :
  (k <= 0 \/ range_max s < k)%Z ->
  @sample_unique _ (spec_sampler G seed_rng next_uniform fuel) k s
  = (Raise InvalidArgument, s).
Proof.
  intros Hk. simpl. unfold spec_sample_unique.
  assert (Hbad : ((k <=? 0) || (range_max s <? k))%Z = true).
  { apply orb_true_iff. destruct Hk as [Hk | Hk].
    - left. apply Z.leb_le. assumption.
    - right. apply Z.ltb_lt. assumption. }
  rewrite Hbad. reflexivity.
Qed.

End Errors.

(** C5 fails as stated: with [range_max = 10] and [num_sampled = 1] a call
    on the true class [10], which is outside [[0, 10)], returns a result. *)
Lemma out_of_range_class_accepted :
  exists (self : LogUniformSampler) (s0 s' : UniqueSampler.state unit)
         (result : NDArray * NDArray * NDArray),
    @__init__ _ (UniqueSampler.zero_sampler 1) 10 1 None 0 = Ok (self, s0)
    /\ ~ all_entries (holds_class 10) out_of_range_classes
    /\ @run _ (UniqueSampler.zero_sampler 1) _
         (__call__ self out_of_range_classes) s0
       = (Ok result, s', 1%nat).
Proof.
  eexists _, _, _, _.
  split; [reflexivity |].
  split.
  - intros Hall. inversion Hall as [| x l (c & Heq & Hc) _]; subst.
    injection Heq as Heq. apply eq_IZR in Heq. lia.
  - rewrite run_call.
    change (_num_sampled _) with 1%Z.
    rewrite (zero_sampler_one_draw 0 10) by lia.
    reflexivity.
Qed.

(** C5, amended.  With the native sampler of the specification, which
    checks its own arguments: construction fails when [range_max] is not
    positive (a ValueError of [math.log] when [range_max <= -1], an
    InvalidArgument of the native constructor when [range_max = 0]); a call,
    the first or any later one, fails with InvalidArgument, raised by
    [sample_unique], whenever [num_sampled] is not positive or exceeds
    [range_max]; whatever [sample_unique] raises reaches the caller in place
    of a result; and [true_classes] is not validated: when the draw succeeds
    the call returns a result for every array. *)
Theorem errors_surface_no_validation {G : Type} (seed_rng : Z -> G)
    (next_uniform : G -> R * G) (fuel : nat)
    (range_max num_sampled : Z) (dtype_arg : option DType) (seed : Z)
    (true_classes : NDArray) :
  let native := UniqueSampler.spec_sampler G seed_rng next_uniform fuel in
  ((range_max <= -1)%Z ->
     @__init__ _ native range_max num_sampled dtype_arg seed = Raise ValueError)
  /\ (range_max = 0%Z ->
      @__init__ _ native range_max num_sampled dtype_arg seed
      = Raise InvalidArgument)
  /\ (forall (self : LogUniformSampler) (s0 : UniqueSampler.state G),
        @__init__ _ native range_max num_sampled dtype_arg seed = Ok (self, s0) ->
        UniqueSampler.range_max s0 = range_max
        /\ (forall (s s' : UniqueSampler.state G) (o : outcome (list Z * Z)),
              @sample_unique _ native num_sampled s = (o, s') ->
              UniqueSampler.range_max s' = UniqueSampler.range_max s)
        /\ (forall s : UniqueSampler.state G,
              UniqueSampler.range_max s = range_max ->
              (num_sampled <= 0 \/ range_max < num_sampled)%Z ->
              @run _ native _ (__call__ self true_classes) s
              = (Raise InvalidArgument, s, 1%nat))
        /\ (forall (s s' : UniqueSampler.state G) (e : exn),
              @sample_unique _ native num_sampled s = (Raise e, s') ->
              @run _ native _ (__call__ self true_classes) s
              = (Raise e, s', 1%nat))
        /\ (forall (s s' : UniqueSampler.state G) (drawn : list Z * Z),
              @sample_unique _ native num_sampled s = (Ok drawn, s') ->
              exists result : NDArray * NDArray * NDArray,
                @run _ native _ (__call__ self true_classes) s
                = (Ok result, s', 1%nat))).
Proof.
  intros native. split; [| split].
  - intros Hr. unfold __init__, math_log.
    destruct (range_max + 1 <=? 0)%Z eqn:Hle; [reflexivity |].
    apply Z.leb_gt in Hle. lia.
  - intros ->. reflexivity.
  - intros self s0 Hinit.
    destruct (init_fields _ _ _ _ _ _ Hinit) as (_ & Hk & _).
    destruct (spec_init_state _ _ _ _ _ _ _ _ _ _ Hinit) as [_ Hs0].
    split; [rewrite Hs0; reflexivity |].
    split; [| split; [| split]].
    + intros s s' o Hs.
      apply (spec_sample_unique_keeps_range
               G next_uniform fuel num_sampled s s' o Hs).
    + intros s Hs Hbad. rewrite run_call, Hk.
      rewrite (spec_sample_unique_rejects G seed_rng next_uniform fuel)
        by (rewrite Hs; exact Hbad).
      reflexivity.
    + intros s s' e Hs. rewrite run_call, Hk, Hs. reflexivity.
    + intros s s' drawn Hs. rewrite run_call, Hk, Hs.
      eexists. reflexivity.
Qed.

Lemma errors_surface_no_validation_witness :
  @__init__ _ (UniqueSampler.zero_sampler 1) (-1) 1 None 0 = Raise ValueError
  /\ @__init__ _ (UniqueSampler.zero_sampler 1) 0 1 None 0
     = Raise InvalidArgument
  /\ @run _ (UniqueSampler.zero_sampler 1) _
       (__call__ {| _num_sampled := 3; _log_range := ln (IZR (2 + 1));
                    _dtype := float32 |} example_true_classes)
       {| UniqueSampler.range_max := 2; UniqueSampler.rng := tt |}
     = (Raise InvalidArgument,
        {| UniqueSampler.range_max := 2; UniqueSampler.rng := tt |}, 1%nat)
  /\ @run _ (UniqueSampler.zero_sampler 1) _
       (__call__ {| _num_sampled := 0; _log_range := ln (IZR (10 + 1));
                    _dtype := float32 |} example_true_classes)
       {| UniqueSampler.range_max := 10; UniqueSampler.rng := tt |}
     = (Raise InvalidArgument,
        {| UniqueSampler.range_max := 10; UniqueSampler.rng := tt |}, 1%nat)
  /\ exists result : NDArray * NDArray * NDArray,
       @run _ (UniqueSampler.zero_sampler 1) _
         (__call__ {| _num_sampled := 1; _log_range := ln (IZR (10 + 1));
                      _dtype := float32 |} out_of_range_classes)
         {| UniqueSampler.range_max := 10; UniqueSampler.rng := tt |}
       = (Ok result,
          {| UniqueSampler.range_max := 10; UniqueSampler.rng := tt |}, 1%nat).
Proof.
  split; [| split; [| split; [| split]]].
  - apply (errors_surface_no_validation (fun _ => tt) UniqueSampler.zero_rng
             1 (-1) 1 None 0 example_true_classes).
    lia.
  - destruct (errors_surface_no_validation (fun _ => tt) UniqueSampler.zero_rng
                1 0 1 None 0 example_true_classes) as (_ & Hzero & _).
    apply Hzero. reflexivity.
  - destruct (errors_surface_no_validation (fun _ => tt) UniqueSampler.zero_rng
                1 2 3 None 0 example_true_classes) as (_ & _ & Hcall).
    destruct (Hcall _ _ eq_refl) as (_ & _ & Hbad & _).
    apply Hbad; [reflexivity | right; lia].
  - destruct (errors_surface_no_validation (fun _ => tt) UniqueSampler.zero_rng
                1 10 0 None 0 example_true_classes) as (_ & _ & Hcall).
    destruct (Hcall _ _ eq_refl) as (_ & _ & Hbad & _).
    apply Hbad; [reflexivity | left; lia].
  - destruct (errors_surface_no_validation (fun _ => tt) UniqueSampler.zero_rng
                1 10 1 None 0 out_of_range_classes) as (_ & _ & Hcall).
    destruct (Hcall _ _ eq_refl) as (_ & _ & _ & _ & Hok).
    apply (Hok _ _ ([0%Z], 1%Z)).
    apply (zero_sampler_one_draw 0 10). lia.
Defined.

(* ================================================================== *)
(** ** Further properties: the distribution the code computes *)

Section Distribution.

Lemma ln_ratio (c : Z) :
  (0 <= c)%Z ->
  ln (IZR (c + 2) / IZR (c + 1)) = ln (IZR (c + 2)) - ln (IZR (c + 1)).
Proof.
  intros Hc.
  assert (0 < IZR (c + 1)) by (apply IZR_lt; lia).
  assert (0 < IZR (c + 2)) by (apply IZR_lt; lia).
  unfold Rdiv. rewrite ln_mult by (try apply Rinv_0_lt_compat; assumption).
  rewrite ln_Rinv by assumption. ring.
Qed.

Lemma Rsum_app (l1 l2 : list R) : Rsum (l1 ++ l2) = Rsum l1 + Rsum l2.
Proof.
  induction l1 as [| x l1 IH]; simpl; [ring | rewrite IH; ring].
Qed.

Lemma Rsum_map_scale {A : Type} (f : A -> R) (k : R) (l : list A) :
  Rsum (map (fun a => f a * k) l) = Rsum (map f l) * k.
Proof.
  induction l as [| a l IH]; simpl; [ring | rewrite IH; ring].
Qed.

(** The logarithms of the ratios telescope. *)
Lemma ln_ratio_telescope (n : nat) :
  Rsum (map (fun c => ln (IZR (c + 2) / IZR (c + 1)))
            (map Z.of_nat (seq 0 n)))
  = ln (IZR (Z.of_nat n + 1)).
Proof.
  induction n as [| n IH].
  - simpl. symmetry. apply ln_1.
  - rewrite seq_S, !map_app, Rsum_app, IH.
    cbn [Nat.add map Rsum fold_right].
    rewrite ln_ratio by lia.
    replace (Z.of_nat n + 2)%Z with (Z.of_nat (S n) + 1)%Z by lia.
    ring.
Qed.

Lemma all_classes_nonneg (range_max c : Z) :
  In c (all_classes range_max) -> (0 <= c < range_max)%Z.
Proof.
  unfold all_classes. intros Hin.
  apply in_map_iff in Hin. destruct Hin as (n & <- & Hn).
  apply in_seq in Hn. lia.
Qed.

Lemma Rsum_log_uniform_prob (range_max : Z) :
  (1 <= range_max)%Z ->
  Rsum (map (log_uniform_prob range_max) (all_classes range_max)) = 1.
Proof.
  intros Hr. unfold log_uniform_prob, Rdiv, all_classes.
  rewrite (Rsum_map_scale (fun c => ln (IZR (c + 2) * / IZR (c + 1)))).
  pose proof (ln_ratio_telescope (Z.to_nat range_max)) as Ht.
  unfold Rdiv in Ht. rewrite Ht, Z2Nat.id by lia.
  apply Rinv_r.
  pose proof (ln_range_pos range_max Hr). lra.
Qed.

End Distribution.

(** X1.  The probability the call computes for a nonnegative class, as the
    logarithm of a ratio, is the one the class docstring gives as a
    difference of logarithms. *)
Theorem prob_matches_docstring {St : Type} {CS : CSampler St}
    (range_max num_sampled : Z) (dtype_arg : option DType) (seed : Z)
    (self : LogUniformSampler) (s0 : St) (true_classes : NDArray)
    (drawn : list Z * Z) (c : Z) :
  __init__ range_max num_sampled dtype_arg seed = Ok (self, s0) ->
  (1 <= range_max)%Z -> (0 <= c)%Z ->
  (forall i : nat,
     nth_error (data true_classes) i = Some (Fin (IZR c)) ->
     nth_error (data (prob_true (call_locals self true_classes drawn))) i
     = Some (Fin (docstring_prob range_max c)))
  /\ (forall j : nat,
        nth_error (fst drawn) j = Some c ->
        nth_error (data (prob_sampled (call_locals self true_classes drawn))) j
        = Some (Fin (docstring_prob range_max c))).
Proof.
  intros Hinit Hr Hc.
  destruct (init_fields _ _ _ _ _ _ Hinit) as (_ & _ & Hlog & _).
  assert (Heq : log_uniform_prob range_max c = docstring_prob range_max c).
  { unfold log_uniform_prob, docstring_prob. rewrite ln_ratio by assumption.
    reflexivity. }
  split.
  - intros i Hi.
    rewrite data_prob_true, (map_nth_error _ _ _ Hi), Hlog.
    rewrite base_prob_class, Heq by assumption. reflexivity.
  - intros j Hj.
    rewrite data_prob_sampled, (map_nth_error _ _ _ Hj), Hlog.
    rewrite base_prob_class, Heq by assumption. reflexivity.
Qed.

Lemma prob_matches_docstring_witness :
  exists self : LogUniformSampler,
    nth_error (data (prob_true (call_locals self example_true_classes
                                  example_draw_exact))) 2
    = Some (Fin (docstring_prob 10 5)).
Proof.
  destruct (@prob_matches_docstring _ scripted_sampler 10 3 None 1 _ []
              example_true_classes example_draw_exact 5 eq_refl
              ltac:(lia) ltac:(lia)) as (Ht & _).
  eexists. apply Ht. reflexivity.
Defined.

(** X2.  The formula of the docstring, taken over the real numbers, is a
    probability distribution on the classes [0 .. range_max-1]: every value
    lies in [(0, 1]] and the values sum to one.  (This is a property of the
    formula; the doubles the code computes from it sum to one up to
    rounding only.) *)
Theorem docstring_formula_is_a_distribution (range_max : Z) :
  (1 <= range_max)%Z ->
  Forall (fun c => 0 < docstring_prob range_max c <= 1)
         (all_classes range_max)
  /\ Rsum (map (docstring_prob range_max) (all_classes range_max)) = 1.
Proof.
  intros Hr.
  assert (Heq : forall c, In c (all_classes range_max) ->
                          docstring_prob range_max c
                          = log_uniform_prob range_max c).
  { intros c Hc. apply all_classes_nonneg in Hc.
    unfold log_uniform_prob, docstring_prob.
    rewrite ln_ratio by lia. reflexivity. }
  split.
  - apply Forall_forall. intros c Hc. rewrite (Heq c Hc).
    apply all_classes_nonneg in Hc. split.
    + apply log_uniform_prob_pos; lia.
    + apply log_uniform_prob_le_1. assumption.
  - rewrite (map_ext_in _ _ _ Heq).
    apply Rsum_log_uniform_prob. assumption.
Qed.

Lemma docstring_formula_is_a_distribution_witness :
  Forall (fun c => 0 < docstring_prob 10 c <= 1) (all_classes 10)
  /\ Rsum (map (docstring_prob 10) (all_classes 10)) = 1.
Proof.
  apply (docstring_formula_is_a_distribution 10). lia.
Defined.

(* ================================================================== *)
(** ** Further properties: entries of the returned arrays *)

Section Entries.

Variable self : LogUniformSampler.
Variable true_classes : NDArray.
Variable drawn : list Z * Z.

Lemma count_true_entry (i : nat) (x : xreal) :
  nth_error (data true_classes) i = Some x ->
  nth_error (data (out_count_true (call_result self true_classes drawn))) i
  = Some (cast_elem (_dtype self)
            (expected (snd drawn) (_num_sampled self)
               (base_prob (_log_range self) x))).
Proof.
  intros Hi. unfold out_count_true, call_result, call_return.
  cbn [fst snd]. rewrite data_astype, data_count_true, map_map.
  exact (map_nth_error
           (fun x => cast_elem (_dtype self)
                       (expected (snd drawn) (_num_sampled self)
                          (base_prob (_log_range self) x)))
           i (data true_classes) Hi).
Qed.

Lemma count_sample_entry (j : nat) (c : Z) :
  nth_error (fst drawn) j = Some c ->
  nth_error (data (out_count_sample (call_result self true_classes drawn))) j
  = Some (cast_elem (_dtype self)
            (expected (snd drawn) (_num_sampled self)
               (base_prob (_log_range self) (Fin (IZR c))))).
Proof.
  intros Hj. unfold out_count_sample, call_result, call_return.
  cbn [fst snd]. rewrite data_astype, data_count_sampled, map_map.
  exact (map_nth_error
           (fun c => cast_elem (_dtype self)
                       (expected (snd drawn) (_num_sampled self)
                          (base_prob (_log_range self) (Fin (IZR c)))))
           j (fst drawn) Hj).
Qed.

End Entries.

Section NonnegativeClasses.

Lemma log_uniform_prob_le_1_nonneg (range_max c : Z) :
  (1 <= range_max)%Z -> (0 <= c)%Z -> log_uniform_prob range_max c <= 1.
Proof.
  intros Hr Hc. unfold log_uniform_prob.
  assert (Hpos : 0 < ln (IZR (range_max + 1))) by (apply ln_range_pos; lia).
  apply (Rmult_le_reg_r (ln (IZR (range_max + 1)))); [assumption |].
  unfold Rdiv. rewrite Rmult_assoc, Rinv_l, Rmult_1_r, Rmult_1_l by lra.
  apply ln_le_compat.
  - pose proof (ratio_gt_1 c Hc). lra.
  - pose proof (ratio_le_2 c Hc).
    assert (2 <= IZR (range_max + 1)) by (apply IZR_le; lia). lra.
Qed.

Lemma log_uniform_prob_lt_1_nonneg (range_max c : Z) :
  (2 <= range_max)%Z -> (0 <= c)%Z -> log_uniform_prob range_max c < 1.
Proof.
  intros Hr Hc. unfold log_uniform_prob.
  assert (Hpos : 0 < ln (IZR (range_max + 1))) by (apply ln_range_pos; lia).
  apply (Rmult_lt_reg_r (ln (IZR (range_max + 1)))); [assumption |].
  unfold Rdiv. rewrite Rmult_assoc, Rinv_l, Rmult_1_r, Rmult_1_l by lra.
  apply ln_increasing.
  - pose proof (ratio_gt_1 c Hc). lra.
  - pose proof (ratio_le_2 c Hc).
    assert (3 <= IZR (range_max + 1)) by (apply IZR_le; lia). lra.
Qed.

(** One try already gives the general formula the value [p]; each further
    try can only add to it. *)
Lemma general_formula_ge_prob (p : R) (n : Z) :
  0 <= p <= 1 -> (1 <= n)%Z -> p <= general_formula p n.
Proof.
  intros Hp Hn. unfold general_formula.
  destruct (Z.to_nat n) as [| m] eqn:Hm; [lia |].
  change ((1 - p) ^ S m) with ((1 - p) * (1 - p) ^ m).
  assert (H : 0 <= (1 - p) ^ m <= 1) by (apply pow_unit_interval; lra).
  nra.
Qed.


(** The general branch on any probability, whichever of the two closed-form
    lemmas applies. *)
Lemma expected_general (n k : Z) (p : R) :
  n <> k -> (1 <= n)%Z -> 0 <= p <= 1 ->
  expected n k (Fin p) = Fin (general_formula p n).
Proof.
  intros Hnk Hn [Hp0 Hp1].
  destruct (Rle_lt_or_eq_dec p 1 Hp1) as [Hlt | ->].
  - apply expected_general_lt1; [assumption | lia | assumption].
  - apply expected_general_eq1; assumption.
Qed.

(** The expected count of a probability is positive once there is a try. *)
Lemma expected_positive (n k : Z) (p : R) :
  0 < p <= 1 -> (1 <= n)%Z -> (1 <= k)%Z ->
  exists e : R, expected n k (Fin p) = Fin e /\ 0 < e.
Proof.
  intros [Hp0 Hp1] Hn Hk.
  destruct (Z.eq_dec n k) as [<- | Hne].
  - exists (fast_path p n). rewrite expected_fast. split; [reflexivity |].
    unfold fast_path. apply IZR_le in Hn. nra.
  - exists (general_formula p n).
    rewrite expected_general by (assumption || lra).
    split; [reflexivity |].
    pose proof (general_formula_ge_prob p n ltac:(lra) Hn). lra.
Qed.

(** [ln y < y - 1] away from [y = 1]. *)
Lemma ln_lt_minus_1 (y : R) : 0 < y -> y <> 1 -> ln y < y - 1.
Proof.
  intros Hy Hne.
  assert (Hln : ln y <> 0).
  { intros H0. apply Hne. rewrite <- (exp_ln y Hy), H0. apply exp_0. }
  pose proof (exp_ineq1 (ln y) Hln) as H.
  rewrite exp_ln in H by assumption. lra.
Qed.

(** The logarithm of the ratio lies strictly between [1/(c+2)] and
    [1/(c+1)]. *)
Lemma ln_ratio_bounds (c : Z) :
  (0 <= c)%Z ->
  / (IZR c + 2) < ln (IZR (c + 2) / IZR (c + 1)) < / (IZR c + 1).
Proof.
  intros Hc. rewrite (ratio_unfold c Hc).
  apply IZR_le in Hc.
  assert (Hinv : 0 < / (IZR c + 1)) by (apply Rinv_0_lt_compat; lra).
  split.
  - assert (Hy : 0 < / (1 + / (IZR c + 1))) by (apply Rinv_0_lt_compat; lra).
    assert (Heq : / (1 + / (IZR c + 1)) = 1 - / (IZR c + 2))
      by (field; lra).
    assert (Hi2 : 0 < / (IZR c + 2)) by (apply Rinv_0_lt_compat; lra).
    pose proof (ln_lt_minus_1 (/ (1 + / (IZR c + 1))) Hy ltac:(lra)) as H.
    rewrite ln_Rinv in H by lra. lra.
  - pose proof (ln_lt_minus_1 (1 + / (IZR c + 1)) ltac:(lra) ltac:(lra)).
    lra.
Qed.

End NonnegativeClasses.

(** X4.  With the output dtype float32 (the default) or float64,
    [num_sampled >= 1] and at least one try, the expected count returned for
    every class [0 <= c < 2^52], true or sampled, is finite and strictly
    positive.  (From [2^53] on the ratio [(c+2.0)/(c+1.0)] is [1.0] and the
    count is zero; a float16 output underflows small counts to zero.) *)
Theorem float_counts_positive {St : Type} {CS : CSampler St}
    (range_max num_sampled : Z) (dtype_arg : option DType) (seed : Z)
    (self : LogUniformSampler) (s0 : St) (true_classes : NDArray)
    (sampled : list Z) (attempts : Z) (c : Z) :
  __init__ range_max num_sampled dtype_arg seed = Ok (self, s0) ->
  _dtype self = float32 \/ _dtype self = float64 ->
  (1 <= range_max)%Z -> (1 <= num_sampled)%Z -> (1 <= attempts)%Z ->
  (0 <= c < 2 ^ 52)%Z ->
  let result := call_result self true_classes (sampled, attempts) in
  (forall i : nat,
     nth_error (data true_classes) i = Some (Fin (IZR c)) ->
     exists e : R,
       nth_error (data (out_count_true result)) i = Some (Fin e) /\ 0 < e)
  /\ (forall j : nat,
        nth_error sampled j = Some c ->
        exists e : R,
          nth_error (data (out_count_sample result)) j = Some (Fin e)
          /\ 0 < e).
Proof.
  intros Hinit Hdtype Hr Hk Hn [Hc _] result. subst result.
  destruct (init_fields _ _ _ _ _ _ Hinit) as (_ & Hns & Hlog & _).
  assert (Hf : is_float (_dtype self) = true)
    by (destruct Hdtype as [-> | ->]; reflexivity).
  pose proof (log_uniform_prob_pos range_max c Hr Hc) as Hpos.
  pose proof (log_uniform_prob_le_1_nonneg range_max c Hr Hc) as Hle.
  destruct (expected_positive attempts num_sampled
              (log_uniform_prob range_max c) (conj Hpos Hle) Hn Hk)
    as (e & He & Hepos).
  split.
  - intros i Hi. exists e.
    rewrite (count_true_entry _ _ _ _ _ Hi), Hns, Hlog.
    rewrite cast_elem_float by assumption. simpl snd.
    rewrite base_prob_class, He by assumption.
    split; [reflexivity | assumption].
  - intros j Hj. exists e.
    rewrite (count_sample_entry _ _ (sampled, attempts) _ _ Hj), Hns, Hlog.
    rewrite cast_elem_float by assumption. simpl snd.
    rewrite base_prob_class, He by assumption.
    split; [reflexivity | assumption].
Qed.

Lemma float_counts_positive_witness :
  exists (self : LogUniformSampler) (e : R),
    nth_error (data (out_count_true
                       (call_result self example_true_classes
                          example_draw_rejected))) 2
    = Some (Fin e)
    /\ 0 < e.
Proof.
  destruct (@float_counts_positive _ scripted_sampler 10 3 None 1 _ []
              example_true_classes [0; 2; 1]%Z 5 5 eq_refl
              (or_introl eq_refl)
              ltac:(lia) ltac:(lia) ltac:(lia) ltac:(lia)) as (Ht & _).
  destruct (Ht 2%nat eq_refl) as (e & He).
  eexists _, e. exact He.
Defined.



(** X6.  The probability of a class [0 <= c < 2^20] is Zipfian up to the
    bracket [1/((c+2) L) < p(c) < 1/((c+1) L)] with
    [L = ln(range_max + 1)].  (The bracket narrows like [1/c^2] while the
    rounding error of the ratio grows like [c], so for classes in the
    hundreds of millions the computed double can leave it.) *)
Theorem prob_is_approximately_zipfian {St : Type} {CS : CSampler St}
    (range_max num_sampled : Z) (dtype_arg : option DType) (seed : Z)
    (self : LogUniformSampler) (s0 : St) (true_classes : NDArray)
    (drawn : list Z * Z) (i : nat) (c : Z) :
  __init__ range_max num_sampled dtype_arg seed = Ok (self, s0) ->
  (1 <= range_max)%Z -> (0 <= c < 2 ^ 20)%Z ->
  nth_error (data true_classes) i = Some (Fin (IZR c)) ->
  exists p : R,
    nth_error (data (prob_true (call_locals self true_classes drawn))) i
    = Some (Fin p)
    /\ / (IZR c + 2) / ln (IZR (range_max + 1)) < p
    /\ p < / (IZR c + 1) / ln (IZR (range_max + 1)).
Proof.
  intros Hinit Hr [Hc _] Hi.
  destruct (init_fields _ _ _ _ _ _ Hinit) as (_ & _ & Hlog & _).
  exists (log_uniform_prob range_max c).
  rewrite data_prob_true, (map_nth_error _ _ _ Hi), Hlog.
  rewrite base_prob_class by assumption.
  split; [reflexivity |].
  destruct (ln_ratio_bounds c Hc) as [Hlo Hhi].
  pose proof (ln_range_pos range_max Hr) as HL.
  assert (HiL : 0 < / ln (IZR (range_max + 1)))
    by (apply Rinv_0_lt_compat; assumption).
  unfold log_uniform_prob, Rdiv.
  split; apply Rmult_lt_compat_r; assumption.
Qed.

Lemma prob_is_approximately_zipfian_witness :
  exists (self : LogUniformSampler) (p : R),
    nth_error (data (prob_true (call_locals self example_true_classes
                                  example_draw_exact))) 2
    = Some (Fin p)
    /\ / (5 + 2) / ln (IZR (10 + 1)) < p
    /\ p < / (5 + 1) / ln (IZR (10 + 1)).
Proof.
  destruct (@prob_is_approximately_zipfian _ scripted_sampler 10 3 None 1
              _ [] example_true_classes example_draw_exact 2%nat 5
              eq_refl ltac:(lia) ltac:(lia) eq_refl) as (p & H).
  eexists _, p. exact H.
Defined.

(* ================================================================== *)
(** ** Further properties: classes and configurations nobody checks *)

Section Unchecked.

(** A probability in [(0, 1]] always yields a valid count. *)
Lemma expected_prob_in_range (n k : Z) (p : R) :
  0 < p <= 1 -> (1 <= k <= n)%Z ->
  finite_in 0 (IZR k) (expected n k (Fin p)).
Proof.
  intros [Hp0 Hp1] [Hk Hn].
  assert (Hk' : 1 <= IZR k) by (apply IZR_le; assumption).
  destruct (Z.eq_dec n k) as [-> | Hne].
  - rewrite expected_fast. exists (fast_path p k).
    split; [reflexivity |]. unfold fast_path. nra.
  - exists (general_formula p n).
    rewrite expected_general by (assumption || lia || lra).
    split; [reflexivity |].
    pose proof (general_formula_bounds p n ltac:(lra)). lra.
Qed.

(** The probability expression on a negative class: [+inf] at [-1] (a
    division by zero), [-inf] at [-2] (the logarithm of zero), a negative
    number below. *)
Lemma base_prob_negative (log_range : R) (c : Z) :
  0 < log_range -> (c < 0)%Z ->
  base_prob log_range (Fin (IZR c)) = PInf
  \/ base_prob log_range (Fin (IZR c)) = NInf
  \/ exists q : R, base_prob log_range (Fin (IZR c)) = Fin q /\ q < 0.
Proof.
  intros HL Hc. unfold base_prob. simpl xadd.
  destruct (Z.eq_dec c (-1)) as [-> | Hn1].
  - left. simpl xdiv.
    rewrite (Rsign_Eq (-1 + 1)) by lra.
    rewrite (Rsign_Gt (-1 + 2)) by lra. simpl.
    rewrite Rsign_Gt by assumption. reflexivity.
  - destruct (Z.eq_dec c (-2)) as [-> | Hn2].
    + right. left. simpl xdiv.
      rewrite (Rsign_Lt (-2 + 1)) by lra. simpl xlog.
      rewrite Rsign_Eq by (unfold Rdiv; lra). simpl.
      rewrite Rsign_Gt by assumption. reflexivity.
    + right. right.
      assert (Hc3 : IZR c <= -3) by (apply IZR_le; lia).
      assert (Hden : / (IZR c + 1) < 0) by (apply Rinv_lt_0_compat; lra).
      assert (Hratio : 0 < (IZR c + 2) / (IZR c + 1) < 1).
      { assert (Heq : (IZR c + 2) / (IZR c + 1) = 1 + / (IZR c + 1))
          by (field; lra).
        rewrite Heq.
        assert (Hd : / (- (IZR c + 1)) < / 1)
          by (apply Rinv_lt_contravar; lra).
        rewrite Rinv_opp, Rinv_1 in Hd.
        lra. }
      simpl xdiv. rewrite (Rsign_Lt (IZR c + 1)) by lra.
      rewrite xlog_Fin by lra. rewrite xdiv_Fin by assumption.
      eexists. split; [reflexivity |].
      assert (ln ((IZR c + 2) / (IZR c + 1)) < 0)
        by (rewrite <- ln_1; apply ln_increasing; lra).
      apply Rmult_lt_reg_r with log_range; [assumption |].
      unfold Rdiv at 1. rewrite Rmult_assoc, Rinv_l by lra. lra.
Qed.

(** None of those three is turned into a valid count. *)
Lemma expected_invalid (n k : Z) (x : xreal) :
  (1 <= k)%Z -> (1 <= n)%Z ->
  x = PInf \/ x = NInf \/ (exists q : R, x = Fin q /\ q < 0) ->
  ~ finite_in 0 (IZR k) (expected n k x).
Proof.
  intros Hk Hn Hx (r & Hr & Hb).
  assert (Hk' : 0 < IZR k) by (apply IZR_lt; lia).
  assert (Hn' : 0 < IZR n) by (apply IZR_lt; lia).
  unfold expected in Hr.
  destruct Hx as [-> | [-> | (q & -> & Hq)]].
  - destruct (n =? k)%Z; simpl in Hr.
    + rewrite Rsign_Gt in Hr by assumption. discriminate.
    + discriminate.
  - destruct (n =? k)%Z; simpl in Hr.
    + rewrite Rsign_Gt in Hr by assumption. discriminate.
    + rewrite Rsign_Gt in Hr by assumption. simpl in Hr.
      rewrite Rsign_Lt in Hr by lra. discriminate.
  - destruct (n =? k)%Z eqn:Hnk.
    + simpl in Hr. injection Hr as <-. nra.
    + apply Z.eqb_neq in Hnk.
      pose proof (expected_general_lt1 n k q Hnk ltac:(lia) ltac:(lra)) as He.
      unfold expected in He. apply Z.eqb_neq in Hnk. rewrite Hnk in He.
      rewrite He in Hr. injection Hr as <-.
      unfold general_formula in Hb.
      assert (1 < (1 - q) ^ Z.to_nat n)
        by (apply Rlt_pow_R1; [lra | lia]).
      lra.
Qed.

(** With [range_max = 0] the normaliser [math.log(1)] is zero and every
    probability of a nonnegative class is [+inf]. *)
Lemma base_prob_zero_range (c : Z) :
  (0 <= c)%Z -> base_prob (ln (IZR (0 + 1))) (Fin (IZR c)) = PInf.
Proof.
  intros Hc. unfold base_prob.
  pose proof (ratio_gt_1 c Hc) as Hratio.
  assert (Hc' : 0 <= IZR c) by (apply IZR_le; assumption).
  simpl xadd. rewrite xdiv_Fin by lra.
  replace (IZR c + 2) with (IZR (c + 2)) by (rewrite plus_IZR; reflexivity).
  replace (IZR c + 1) with (IZR (c + 1)) by (rewrite plus_IZR; reflexivity).
  rewrite xlog_Fin by lra.
  simpl xdiv. rewrite (Rsign_Eq (ln 1)) by apply ln_1.
  rewrite Rsign_Gt; [reflexivity |].
  rewrite <- ln_1. apply ln_increasing; lra.
Qed.

Lemma expected_PInf (n k : Z) (r : R) : expected n k PInf <> Fin r.
Proof.
  unfold expected. destruct (n =? k)%Z; simpl.
  - destruct (Rsign (IZR k)); discriminate.
  - discriminate.
Qed.

End Unchecked.

(** X8.  With the output dtype float32 (the default) or float64 and
    [attempts >= num_sampled >= 1], the count returned for a true class [c]
    of magnitude below [2^52] is a valid count (finite, within
    [[0, num_sampled]]) exactly when [c >= 0]: a class at or beyond
    [range_max] is silently given one, a negative class gets an infinity, a
    NaN or a negative number, and nothing is raised.  (For a negative class
    of magnitude [2^53] or more the ratio rounds to [1.0] and the count is
    zero.) *)
Theorem count_valid_iff_class_nonnegative {St : Type} {CS : CSampler St}
    (range_max num_sampled : Z) (dtype_arg : option DType) (seed : Z)
    (self : LogUniformSampler) (s0 : St) (true_classes : NDArray)
    (sampled : list Z) (attempts : Z) (i : nat) (c : Z) :
  __init__ range_max num_sampled dtype_arg seed = Ok (self, s0) ->
  _dtype self = float32 \/ _dtype self = float64 ->
  (1 <= range_max)%Z -> (1 <= num_sampled <= attempts)%Z ->
  (- 2 ^ 52 < c < 2 ^ 52)%Z ->
  nth_error (data true_classes) i = Some (Fin (IZR c)) ->
  exists v : xreal,
    nth_error (data (out_count_true
                       (call_result self true_classes (sampled, attempts)))) i
    = Some v
    /\ (finite_in 0 (IZR num_sampled) v <-> (0 <= c)%Z).
Proof.
  intros Hinit Hdtype Hr Hk _ Hi.
  destruct (init_fields _ _ _ _ _ _ Hinit) as (_ & Hns & Hlog & _).
  assert (Hf : is_float (_dtype self) = true)
    by (destruct Hdtype as [-> | ->]; reflexivity).
  eexists. split.
  - rewrite (count_true_entry _ _ _ _ _ Hi), Hns, Hlog.
    rewrite cast_elem_float by assumption. simpl snd. reflexivity.
  - split.
    + intros Hfin. destruct (Z_lt_le_dec c 0) as [Hneg | Hpos]; [| exact Hpos].
      exfalso. revert Hfin. apply expected_invalid; try lia.
      apply base_prob_negative; [apply ln_range_pos |]; assumption.
    + intros Hc. rewrite base_prob_class by assumption.
      apply expected_prob_in_range; [| assumption].
      split.
      * apply log_uniform_prob_pos; assumption.
      * apply log_uniform_prob_le_1_nonneg; assumption.
Qed.

Lemma count_valid_iff_class_nonnegative_witness :
  exists (self : LogUniformSampler) (v : xreal),
    nth_error (data (out_count_true
                       (call_result self out_of_range_classes
                          example_draw_rejected))) 0
    = Some v
    /\ (finite_in 0 3 v <-> (0 <= 10)%Z).
Proof.
  destruct (@count_valid_iff_class_nonnegative _ scripted_sampler
              10 3 None 1 _ [] out_of_range_classes [0; 2; 1]%Z 5 0%nat 10
              eq_refl (or_introl eq_refl) ltac:(lia) ltac:(lia) ltac:(lia)
              eq_refl) as (v & H).
  eexists _, v. exact H.
Defined.

(** X9.  [range_max = 0] passes construction whenever the native constructor
    does, and from then on no count of a nonnegative true class is a finite
    number, whatever the draw. *)
Theorem zero_range_gives_no_finite_count {St : Type} {CS : CSampler St}
    (num_sampled : Z) (dtype_arg : option DType) (seed : Z) (s0 : St) :
  cs_new 0 seed = Ok s0 ->
  exists self : LogUniformSampler,
    __init__ 0 num_sampled dtype_arg seed = Ok (self, s0)
    /\ forall (true_classes : NDArray) (drawn : list Z * Z) (i : nat) (c : Z),
         (0 <= c)%Z ->
         nth_error (data true_classes) i = Some (Fin (IZR c)) ->
         exists v : xreal,
           nth_error (data (count_true (call_locals self true_classes drawn))) i
           = Some v
           /\ forall r : R, v <> Fin r.
Proof.
  intros Hnew.
  exists {| _num_sampled := num_sampled;
            _log_range := ln (IZR (0 + 1));
            _dtype := match dtype_arg with None => float32 | Some d => d end |}.
  split.
  - unfold __init__, math_log.
    change (0 + 1 <=? 0)%Z with false. cbn [bind].
    rewrite Hnew. reflexivity.
  - intros true_classes drawn i c Hc Hi.
    eexists. split.
    + rewrite data_count_true, (map_nth_error _ _ _ Hi). reflexivity.
    + intros r. cbn [_log_range _num_sampled].
      rewrite (base_prob_zero_range c Hc). apply expected_PInf.
Qed.

Lemma zero_range_gives_no_finite_count_witness :
  exists self : LogUniformSampler,
    @__init__ _ scripted_sampler 0 3 None 1 = Ok (self, [])
    /\ exists v : xreal,
         nth_error (data (count_true (call_locals self example_true_classes
                                        example_draw_exact))) 2
         = Some v
         /\ forall r : R, v <> Fin r.
Proof.
  destruct (@zero_range_gives_no_finite_count _ scripted_sampler 3 None 1 []
              eq_refl) as (self & Hinit & Hcount).
  exists self. split; [exact Hinit |].
  apply (Hcount example_true_classes example_draw_exact 2%nat 5%Z);
    [lia | reflexivity].
Defined.

(* ================================================================== *)
(** ** Further properties: how the outputs relate *)

(** X10.  Within one call a class has one expected count: two entries of
    [true_classes] with the same value get the same count, and a true class
    that was also sampled gets in [expected_count_true] the count it has in
    [expected_count_sample]. *)
Theorem same_class_same_count (self : LogUniformSampler)
    (true_classes : NDArray) (drawn : list Z * Z)
    (i i' j : nat) (x : xreal) (c : Z) :
  let result := call_result self true_classes drawn in
  (nth_error (data true_classes) i = Some x ->
   nth_error (data true_classes) i' = Some x ->
   nth_error (data (out_count_true result)) i
   = nth_error (data (out_count_true result)) i')
  /\ (nth_error (data true_classes) i = Some (Fin (IZR c)) ->
      nth_error (fst drawn) j = Some c ->
      nth_error (data (out_count_true result)) i
      = nth_error (data (out_count_sample result)) j).
Proof.
  intros result. subst result. split.
  - intros Hi Hi'.
    rewrite (count_true_entry _ _ _ _ _ Hi), (count_true_entry _ _ _ _ _ Hi').
    reflexivity.
  - intros Hi Hj.
    rewrite (count_true_entry _ _ _ _ _ Hi), (count_sample_entry _ _ _ _ _ Hj).
    reflexivity.
Qed.

Lemma same_class_same_count_witness :
  nth_error (data (out_count_true
                     (call_result
                        {| _num_sampled := 3; _log_range := ln 11;
                           _dtype := float32 |}
                        example_true_classes example_draw_rejected))) 0
  = nth_error (data (out_count_true
                       (call_result
                          {| _num_sampled := 3; _log_range := ln 11;
                             _dtype := float32 |}
                          example_true_classes example_draw_rejected))) 1
  /\ nth_error (data (out_count_true
                        (call_result
                           {| _num_sampled := 3; _log_range := ln 11;
                              _dtype := float32 |}
                           example_true_classes example_draw_rejected))) 0
     = nth_error (data (out_count_sample
                          (call_result
                             {| _num_sampled := 3; _log_range := ln 11;
                                _dtype := float32 |}
                             example_true_classes example_draw_rejected))) 0.
Proof.
  destruct (same_class_same_count
              {| _num_sampled := 3; _log_range := ln 11; _dtype := float32 |}
              example_true_classes example_draw_rejected
              0%nat 1%nat 0%nat (Fin 0) 0%Z) as [Hdup Hcross].
  split.
  - exact (Hdup eq_refl eq_refl).
  - exact (Hcross eq_refl eq_refl).
Defined.

(** X11.  What a call draws does not depend on its argument: for two
    arrays of true classes, run from the same sampler state, the calls leave
    the same sampler state and return the same sampled classes and the same
    [expected_count_sample] (or fail alike).  Conversely
    [expected_count_true] depends on the draw through the number of tries
    alone, not through the classes drawn. *)
Theorem draw_and_true_classes_independent {St : Type} {CS : CSampler St}
    (self : LogUniformSampler) (true_classes1 true_classes2 : NDArray)
    (s : St) (sampled1 sampled2 : list Z) (attempts : Z) :
  snd (fst (run (__call__ self true_classes1) s))
  = snd (fst (run (__call__ self true_classes2) s))
  /\ outcome_map (fun r => (out_samples r, out_count_sample r))
       (fst (fst (run (__call__ self true_classes1) s)))
     = outcome_map (fun r => (out_samples r, out_count_sample r))
         (fst (fst (run (__call__ self true_classes2) s)))
  /\ out_count_true (call_result self true_classes1 (sampled1, attempts))
     = out_count_true (call_result self true_classes1 (sampled2, attempts)).
Proof.
  rewrite !run_call.
  destruct (sample_unique (_num_sampled self) s) as [[[sampled tries] | e |] s'];
    repeat split.
Qed.

(** X12.  Among the sampled classes below [2^53], as among the true
    ones, a smaller nonnegative class never has the smaller expected count;
    for classes below [2^25] and a draw of exactly [num_sampled >= 1] tries
    it has the strictly larger one. *)
Theorem smaller_sampled_class_higher_count {St : Type} {CS : CSampler St}
    (range_max num_sampled : Z) (dtype_arg : option DType) (seed : Z)
    (self : LogUniformSampler) (s0 : St) (true_classes : NDArray)
    (sampled : list Z) (attempts : Z) (j1 j2 : nat) (c1 c2 : Z) :
  __init__ range_max num_sampled dtype_arg seed = Ok (self, s0) ->
  (2 <= range_max)%Z -> (0 <= c1 < c2)%Z -> (c2 < 2 ^ 53)%Z ->
  (0 <= attempts)%Z ->
  nth_error sampled j1 = Some c1 ->
  nth_error sampled j2 = Some c2 ->
  let l := call_locals self true_classes (sampled, attempts) in
  exists e1 e2 : R,
    nth_error (data (count_sampled l)) j1 = Some (Fin e1)
    /\ nth_error (data (count_sampled l)) j2 = Some (Fin e2)
    /\ e2 <= e1
    /\ ((c2 < 2 ^ 25)%Z -> attempts = num_sampled -> (1 <= num_sampled)%Z ->
        e2 < e1).
Proof.
  intros Hinit Hr Hc Hexact Hn Hj1 Hj2 l. subst l.
  destruct (init_fields _ _ _ _ _ _ Hinit) as (_ & Hk & Hlog & _).
  pose proof (log_uniform_prob_decreasing range_max c1 c2 ltac:(lia) Hc) as Hdec.
  pose proof (log_uniform_prob_pos range_max c2 ltac:(lia) ltac:(lia)) as Hpos.
  pose proof (log_uniform_prob_lt_1_nonneg range_max c1 Hr ltac:(lia)) as Hlt.
  destruct (expected_monotone_in_prob attempts num_sampled
              (log_uniform_prob range_max c1) (log_uniform_prob range_max c2)
              Hn ltac:(lra) Hlt)
    as (e1 & e2 & He1 & He2 & Hle & Hstrict).
  exists e1, e2.
  rewrite data_count_sampled, Hlog, Hk. simpl fst. simpl snd.
  rewrite (map_nth_error _ _ _ Hj1), (map_nth_error _ _ _ Hj2).
  rewrite !base_prob_class by lia.
  rewrite He1, He2.
  repeat split; try assumption.
  intros _ Hfast Hk1. apply Hstrict. lia.
Qed.

Lemma smaller_sampled_class_higher_count_witness :
  exists (self : LogUniformSampler) (e1 e2 : R),
    nth_error (data (count_sampled (call_locals self example_true_classes
                                      example_draw_exact))) 0
    = Some (Fin e1)
    /\ nth_error (data (count_sampled (call_locals self example_true_classes
                                         example_draw_exact))) 1
       = Some (Fin e2)
    /\ e2 < e1.
Proof.
  destruct (@smaller_sampled_class_higher_count _ scripted_sampler
              10 3 None 1 _ [] example_true_classes [1; 4; 7]%Z 3
              0%nat 1%nat 1 4 eq_refl
              ltac:(lia) ltac:(lia) eq_refl ltac:(lia) eq_refl eq_refl)
    as (e1 & e2 & H1 & H2 & _ & Hlt).
  eexists _, e1, e2.
  split; [exact H1 | split; [exact H2 |]].
  apply Hlt; [reflexivity | reflexivity | lia].
Defined.

(* ================================================================== *)
(** ** Further properties: the two branches side by side *)

(** X14.  [_prob_helper] is not monotone in the number of tries across its
    two branches: for a probability [p < 1] with [p * num_sampled] above one
    by a margin ([1/1024], far above any rounding), the count at exactly
    [num_sampled] tries is strictly above the count at every other number of
    tries. *)
Theorem fast_path_above_every_other_tries (p : R) (prob : NDArray) (i : nat)
    (num_sampled n : Z) :
  0 < p < 1 -> 1 + / 1024 <= p * IZR num_sampled ->
  is_float (dtype prob) = true ->
  nth_error (data prob) i = Some (Fin p) ->
  n <> num_sampled ->
  exists fast other : R,
    nth_error (data (_prob_helper num_sampled num_sampled prob)) i
    = Some (Fin fast)
    /\ nth_error (data (_prob_helper n num_sampled prob)) i = Some (Fin other)
    /\ other <= 1 /\ 1 + / 1024 <= fast.
Proof.
  intros [Hp0 Hp1] Hk Hf Hi Hne.
  exists (fast_path p num_sampled), (1 - exp (IZR n * ln (1 - p))).
  rewrite !data_prob_helper by assumption.
  rewrite !(map_nth_error _ _ _ Hi).
  rewrite expected_fast, expected_general_exp by assumption.
  repeat split.
  - pose proof (exp_pos (IZR n * ln (1 - p))). lra.
  - unfold fast_path. exact Hk.
Qed.

Lemma fast_path_above_every_other_tries_witness :
  exists fast other : R,
    nth_error (data (_prob_helper 3 3 example_prob)) 0 = Some (Fin fast)
    /\ nth_error (data (_prob_helper 4 3 example_prob)) 0 = Some (Fin other)
    /\ other <= 1 /\ 1 + / 1024 <= fast.
Proof.
  apply (fast_path_above_every_other_tries (/ 2) example_prob 0%nat 3 4).
  - lra.
  - lra.
  - reflexivity.
  - reflexivity.
  - discriminate.
Defined.
